(** * Extraction dispatch layer of awesome-web-scraper

    A shallow embedding of
    - [services/extraction/extraction_orchestrator.py] (the orchestrator and
      its per-backend circuit breakers),
    - [services/proxy_management/proxy_rotator.py] (proxy pools, sticky
      sessions, health sweep) and
    - [common/models/proxy_config.py] (the proxy record and its health score),
    followed by the properties of the specification that concern them.

    Conventions.  Python [int] is [Z]; Python [float] is read as an exact
    rational ([Q]); [str] is [string]; a [dict] keyed by strings is a [gmap];
    [Optional[T]] is [option T].  [time.time()] and the external extractors
    are the only sources of input from the outside: they are gathered in the
    class [Environment]. *)

From Stdlib Require Import ZArith QArith Lia Lqa Bool List Ascii String.
From stdpp Require Import base option list strings gmap fin_maps pretty.
Import ListNotations.

Local Open Scope string_scope.
Local Open Scope list_scope.
Local Open Scope Z_scope.

(** ** Numbers *)

(** [a < b] on floats, decided. *)
Definition Qltb (a b : Q) : bool := negb (Qle_bool b a).

Definition Qmin (a b : Q) : Q := if Qle_bool a b then a else b.
Definition Qmax (a b : Q) : Q := if Qle_bool a b then b else a.

(** ** Circuit breaker (one dict per backend in [self.circuit_breakers])

    [initialize] creates every breaker with the six keys below; the key
    ["half_open_calls"] appears only once the breaker has been half-open, so
    it is optional.  The state is the string the code stores. *)

Record Breaker := mkBreaker {
  state : string;
  failure_count : Z;
  last_failure_time : Q;
  failure_threshold : Z;
  recovery_timeout : Q;
  half_open_max_calls : Z;
  half_open_calls : option Z
}.

Definition set_state (v : string) (b : Breaker) : Breaker :=
  mkBreaker v (failure_count b) (last_failure_time b) (failure_threshold b)
            (recovery_timeout b) (half_open_max_calls b) (half_open_calls b).

Definition set_failure_count (v : Z) (b : Breaker) : Breaker :=
  mkBreaker (state b) v (last_failure_time b) (failure_threshold b)
            (recovery_timeout b) (half_open_max_calls b) (half_open_calls b).

Definition set_last_failure_time (v : Q) (b : Breaker) : Breaker :=
  mkBreaker (state b) (failure_count b) v (failure_threshold b)
            (recovery_timeout b) (half_open_max_calls b) (half_open_calls b).

Definition set_half_open_calls (v : Z) (b : Breaker) : Breaker :=
  mkBreaker (state b) (failure_count b) (last_failure_time b)
            (failure_threshold b) (recovery_timeout b) (half_open_max_calls b)
            (Some v).

(** The breaker [initialize] installs for every [ScrapeMethod]. *)
Definition initial_breaker : Breaker :=
  mkBreaker "closed" 0 0%Q 5 60%Q 3 None.

(** Body of [_check_circuit_breaker] once the breaker dict is in hand;
    [now] is the reading of [time.time()].  Returns the admission decision
    and the breaker as the call leaves it. *)
Definition breaker_check (breaker : Breaker) (now : Q) : bool * Breaker :=
  if String.eqb (state breaker) "closed" then (true, breaker)
  else if String.eqb (state breaker) "open" then
    if Qltb (recovery_timeout breaker) (now - last_failure_time breaker)%Q
    then (true, set_half_open_calls 0 (set_state "half_open" breaker))
    else (false, breaker)
  else if String.eqb (state breaker) "half_open" then
    let calls := default 0 (half_open_calls breaker) in
    if calls <? half_open_max_calls breaker
    then (true, set_half_open_calls (calls + 1) breaker)
    else (false, breaker)
  else (false, breaker).

(** Body of [_update_circuit_breaker] once the breaker dict is in hand. *)
Definition breaker_update (breaker : Breaker) (success : bool) (now : Q)
  : Breaker :=
  if success then
    if String.eqb (state breaker) "half_open"
    then set_failure_count 0 (set_state "closed" breaker)
    else if String.eqb (state breaker) "closed"
    then set_failure_count 0 breaker
    else breaker
  else
    let breaker :=
      set_last_failure_time now
        (set_failure_count (failure_count breaker + 1) breaker) in
    if failure_threshold breaker <=? failure_count breaker
    then set_state "open" breaker
    else breaker.

(** A run of failed outcomes, one clock reading per outcome. *)
Definition record_failures (b : Breaker) (times : list Q) : Breaker :=
  foldl (fun b t => breaker_update b false t) b times.


(** ** Models of [common/models] *)

Inductive ScrapeMethod := SCRAPY | PYDOLL | PLAYWRIGHT.
Inductive AuthType := AUTH_NONE | BASIC | BEARER | OAUTH | FORM | CUSTOM.
Inductive Priority := LOW | NORMAL | HIGH | URGENT.
Inductive ScrapeStatus :=
  PENDING | RUNNING | SUCCESS | FAILED | TIMEOUT | ST_BLOCKED | ST_RATE_LIMITED.
Inductive ProxyType := HTTP | HTTPS | SOCKS4 | SOCKS5 | VPN.
Inductive ProxyProvider :=
  PRIVATE_INTERNET_ACCESS | BRIGHT_DATA | SMARTPROXY | OXYLABS | RESIDENTIAL
| DATACENTER | MOBILE.
Inductive ProxyStatus := ACTIVE | INACTIVE | BLOCKED | RATE_LIMITED | PROXY_FAILED.

#[global] Instance ScrapeMethod_eq_dec : EqDecision ScrapeMethod.
Proof. solve_decision. Defined.
#[global] Instance ScrapeStatus_eq_dec : EqDecision ScrapeStatus.
Proof. solve_decision. Defined.
#[global] Instance ProxyStatus_eq_dec : EqDecision ProxyStatus.
Proof. solve_decision. Defined.
#[global] Instance ProxyProvider_eq_dec : EqDecision ProxyProvider.
Proof. solve_decision. Defined.

(** [method.value] *)
Definition value (m : ScrapeMethod) : string :=
  match m with
  | SCRAPY => "scrapy" | PYDOLL => "pydoll" | PLAYWRIGHT => "playwright"
  end.

(** [for method in ScrapeMethod] *)
Definition all_methods : list ScrapeMethod := [SCRAPY; PYDOLL; PLAYWRIGHT].

(** [proxy.proxy_type.value] *)
Definition proxy_type_value (t : ProxyType) : string :=
  match t with
  | HTTP => "http" | HTTPS => "https" | SOCKS4 => "socks4"
  | SOCKS5 => "socks5" | VPN => "vpn"
  end.

(** [ScrapeRequest], with the fields of [BaseModel] it inherits.  Values of
    type [Any] inside dicts are kept as strings. *)
Record ScrapeRequest := mkScrapeRequest {
  req_id : option string;
  req_created_at : Q;
  req_updated_at : Q;
  req_metadata : gmap string string;
  req_url : string;
  req_method : ScrapeMethod;
  req_priority : Priority;
  req_auth_type : AuthType;
  req_auth_credentials : option (gmap string string);
  req_headers : gmap string string;
  req_cookies : gmap string string;
  req_selectors : gmap string string;
  req_wait_conditions : list string;
  req_timeout : Z;
  req_use_proxy : bool;
  req_proxy_type : option string;
  req_use_stealth : bool;
  req_human_like_delays : bool;
  req_max_retries : Z;
  req_retry_delay : Z;
  req_extract_links : bool;
  req_extract_images : bool;
  req_extract_text : bool;
  req_callback_url : option string;
  req_custom_config : gmap string string
}.

(** [scrape_request.method = method] *)
Definition set_req_method (m : ScrapeMethod) (r : ScrapeRequest)
  : ScrapeRequest :=
  mkScrapeRequest (req_id r) (req_created_at r) (req_updated_at r)
    (req_metadata r) (req_url r) m (req_priority r) (req_auth_type r)
    (req_auth_credentials r) (req_headers r) (req_cookies r)
    (req_selectors r) (req_wait_conditions r) (req_timeout r)
    (req_use_proxy r) (req_proxy_type r) (req_use_stealth r)
    (req_human_like_delays r) (req_max_retries r) (req_retry_delay r)
    (req_extract_links r) (req_extract_images r) (req_extract_text r)
    (req_callback_url r) (req_custom_config r).

(** [ScrapeResult]; the bookkeeping fields of [BaseModel] (id and the two
    creation stamps) are left out, no operation below reads them. *)
Record ScrapeResult := mkScrapeResult {
  res_request_id : string;
  res_status : ScrapeStatus;
  res_status_code : option Z;
  res_response_headers : gmap string string;
  res_response_time : option Q;
  res_data : gmap string string;
  res_raw_html : option string;
  res_links : list string;
  res_images : list string;
  res_error_message : option string;
  res_error_type : option string;
  res_stack_trace : option string;
  res_proxy_used : option string;
  res_proxy_country : option string;
  res_download_size : option Z;
  res_render_time : option Q;
  res_retry_count : Z;
  res_final_url : option string;
  res_success_score : option Q;
  res_data_completeness : option Q
}.

(** [str(request.id) if request.id else ''] *)
Definition request_id_str (r : ScrapeRequest) : string :=
  default EmptyString (req_id r).

(** [ScrapeResult(request_id=..., status=FAILED, error_message=...,
    error_type=..., response_time=...)]: every other field at its default. *)
Definition failed_result (request_id error_message error_type : string)
    (response_time : option Q) : ScrapeResult :=
  mkScrapeResult request_id FAILED None ∅ response_time ∅ None [] [] 
    (Some error_message) (Some error_type) None None None None None 0 None
    None None.

(** [ProxyConfig] (the inherited [BaseModel] fields, [vpn_config] and
    [custom_headers] are left out: nothing below reads or writes them). *)
Record ProxyConfig := mkProxyConfig {
  host : string;
  port : Z;
  proxy_type : ProxyType;
  provider : ProxyProvider;
  username : option string;
  password : option string;
  country : option string;
  region : option string;
  city : option string;
  status : ProxyStatus;
  health_score : Q;
  success_rate : Q;
  average_response_time : option Q;
  last_used : option string;
  total_requests : Z;
  failed_requests : Z;
  requests_per_minute : option Z;
  concurrent_limit : option Z
}.

Definition set_status (v : ProxyStatus) (p : ProxyConfig) : ProxyConfig :=
  mkProxyConfig (host p) (port p) (proxy_type p) (provider p) (username p)
    (password p) (country p) (region p) (city p) v (health_score p)
    (success_rate p) (average_response_time p) (last_used p)
    (total_requests p) (failed_requests p) (requests_per_minute p)
    (concurrent_limit p).

Definition set_health_score (v : Q) (p : ProxyConfig) : ProxyConfig :=
  mkProxyConfig (host p) (port p) (proxy_type p) (provider p) (username p)
    (password p) (country p) (region p) (city p) (status p) v
    (success_rate p) (average_response_time p) (last_used p)
    (total_requests p) (failed_requests p) (requests_per_minute p)
    (concurrent_limit p).

Definition set_success_rate (v : Q) (p : ProxyConfig) : ProxyConfig :=
  mkProxyConfig (host p) (port p) (proxy_type p) (provider p) (username p)
    (password p) (country p) (region p) (city p) (status p) (health_score p)
    v (average_response_time p) (last_used p)
    (total_requests p) (failed_requests p) (requests_per_minute p)
    (concurrent_limit p).

Definition set_total_requests (v : Z) (p : ProxyConfig) : ProxyConfig :=
  mkProxyConfig (host p) (port p) (proxy_type p) (provider p) (username p)
    (password p) (country p) (region p) (city p) (status p) (health_score p)
    (success_rate p) (average_response_time p) (last_used p)
    v (failed_requests p) (requests_per_minute p) (concurrent_limit p).

Definition set_failed_requests (v : Z) (p : ProxyConfig) : ProxyConfig :=
  mkProxyConfig (host p) (port p) (proxy_type p) (provider p) (username p)
    (password p) (country p) (region p) (city p) (status p) (health_score p)
    (success_rate p) (average_response_time p) (last_used p)
    (total_requests p) v (requests_per_minute p) (concurrent_limit p).

(** ** Exceptions and the outside world *)

(** An instance of a subclass of [Exception]: [type(e).__name__] and
    [str(e)]. *)
Record PyException := mkExc { exc_type : string; exc_message : string }.

Inductive Outcome (A : Type) :=
| Returned (a : A)
| Raised (e : PyException).
Arguments Returned {A} a.
Arguments Raised {A} e.

(** A service object held in [self.services]; [set_proxy_config] of the
    three services stores its argument (the Scrapy one also hands it to its
    middleware). *)
Record Service := mkService { svc_proxy_config : option ProxyConfig }.

(** What the orchestrator does not control: the clock and the extraction
    engines behind the Extractor capability ([scrape], [batch_scrape]).  An
    engine sees the service object, the request and the world, and either
    returns or raises, leaving a new world behind; the clock is read off the
    world, so time passes during the calls of the engines. *)
Class Environment (World : Type) := {
  time_time : World -> Q;
  scrape : ScrapeMethod -> Service -> ScrapeRequest -> World ->
           Outcome ScrapeResult * World;
  batch_scrape : ScrapeMethod -> Service -> list ScrapeRequest -> World ->
                 Outcome (list ScrapeResult) * World
}.

(** Calls made on Extractor objects, in order (ghost state). *)
Inductive Invocation :=
| CallSetProxyConfig (m : ScrapeMethod)
| CallScrape (m : ScrapeMethod) (r : ScrapeRequest)
| CallBatchScrape (m : ScrapeMethod) (rs : list ScrapeRequest).

(** One entry of [self.performance_metrics]. *)
Record Metrics := mkMetrics {
  m_requests : Z;
  m_successful_requests : Z;
  m_total_response_time : Q;
  m_success_rate : Q;
  m_avg_response_time : Q
}.

(** ** ExtractionOrchestrator *)

Section Orchestrator.
Context {World : Type} `{Env : Environment World}.

(** The orchestrator object together with the world it runs in.  The three
    dicts are keyed by [method.value] ([ScrapeMethod] is a [str] enum). *)
Record Orchestrator := mkOrchestrator {
  services : gmap string Service;
  proxy_config : option ProxyConfig;
  performance_metrics : gmap string Metrics;
  circuit_breakers : gmap string Breaker;
  world : World;
  invocations : list Invocation
}.

Definition set_services v (s : Orchestrator) :=
  mkOrchestrator v (proxy_config s) (performance_metrics s)
    (circuit_breakers s) (world s) (invocations s).
Definition set_performance_metrics v (s : Orchestrator) :=
  mkOrchestrator (services s) (proxy_config s) v (circuit_breakers s)
    (world s) (invocations s).
Definition set_circuit_breakers v (s : Orchestrator) :=
  mkOrchestrator (services s) (proxy_config s) (performance_metrics s) v
    (world s) (invocations s).
Definition set_world v (s : Orchestrator) :=
  mkOrchestrator (services s) (proxy_config s) (performance_metrics s)
    (circuit_breakers s) v (invocations s).
Definition log_invocation (i : Invocation) (s : Orchestrator) :=
  mkOrchestrator (services s) (proxy_config s) (performance_metrics s)
    (circuit_breakers s) (world s) (invocations s ++ [i]).

(** Computations of the orchestrator: they read and write its state and
    either return or raise. *)
Definition M (A : Type) : Type := Orchestrator -> Outcome A * Orchestrator.

Definition ret {A} (a : A) : M A := fun s => (Returned a, s).
Definition raise {A} (e : PyException) : M A := fun s => (Raised e, s).
Definition bind {A B} (m : M A) (k : A -> M B) : M B :=
  fun s => match m s with
           | (Returned a, s) => k a s
           | (Raised e, s) => (Raised e, s)
           end.
(** [try: body  except Exception as e: handler(e)] *)
Definition try_except {A} (body : M A) (handler : PyException -> M A) : M A :=
  fun s => match body s with
           | (Returned a, s) => (Returned a, s)
           | (Raised e, s) => handler e s
           end.
Definition gets {A} (f : Orchestrator -> A) : M A := fun s => (Returned (f s), s).
Definition modify (f : Orchestrator -> Orchestrator) : M unit :=
  fun s => (Returned tt, f s).

Notation "'let!' x ':=' m 'in' k" := (bind m (fun x => k))
  (at level 10, x name, m at level 100, k at level 200).
Notation "m ;;; k" := (bind m (fun _ => k))
  (at level 100, right associativity).

(** [for x in xs: f(x)] *)
Fixpoint for_each {A} (f : A -> M unit) (xs : list A) : M unit :=
  match xs with
  | [] => ret tt
  | x :: xs => f x ;;; for_each f xs
  end.

(** [repr(method)], the text of the [KeyError] of [self.services[method]]. *)
Definition repr_method (m : ScrapeMethod) : string :=
  match m with
  | SCRAPY => "<ScrapeMethod.SCRAPY: 'scrapy'>"
  | PYDOLL => "<ScrapeMethod.PYDOLL: 'pydoll'>"
  | PLAYWRIGHT => "<ScrapeMethod.PLAYWRIGHT: 'playwright'>"
  end.

(** [self.services[method]] *)
Definition get_service (method : ScrapeMethod) : M Service :=
  fun s => match services s !! value method with
           | Some svc => (Returned svc, s)
           | None => (Raised (mkExc "KeyError" (repr_method method)), s)
           end.

(** [self.services[method].set_proxy_config(proxy_config)] *)
Definition service_set_proxy_config (method : ScrapeMethod) (pc : ProxyConfig)
  : M unit :=
  let! _ := get_service method in
  modify (fun s => log_invocation (CallSetProxyConfig method)
            (set_services (<[value method := mkService (Some pc)]> (services s)) s)).

(** [await self.services[method].scrape(scrape_request)] *)
Definition service_scrape (method : ScrapeMethod) (r : ScrapeRequest)
  : M ScrapeResult :=
  let! svc := get_service method in
  fun s => let '(o, w) := scrape method svc r (world s) in
           (o, log_invocation (CallScrape method r) (set_world w s)).

(** [await self.services[method].batch_scrape(requests)] *)
Definition service_batch_scrape (method : ScrapeMethod)
    (rs : list ScrapeRequest) : M (list ScrapeResult) :=
  let! svc := get_service method in
  fun s => let '(o, w) := batch_scrape method svc rs (world s) in
           (o, log_invocation (CallBatchScrape method rs) (set_world w s)).

Definition _get_fallback_method (scrape_request : ScrapeRequest)
  : ScrapeMethod :=
  match req_method scrape_request with
  | SCRAPY => PYDOLL
  | PYDOLL => PLAYWRIGHT
  | PLAYWRIGHT => SCRAPY
  end.

Definition _is_method_available (method : ScrapeMethod) : M bool :=
  gets (fun s => bool_decide (is_Some (services s !! value method))).

(** [breaker = self.circuit_breakers.get(method.value, {})]: a missing
    entry yields a fresh empty dict, whose state reads as ["closed"] and
    which is dropped when the call ends. *)
Definition _check_circuit_breaker (method : ScrapeMethod) : M bool :=
  fun s =>
    match circuit_breakers s !! value method with
    | None => (Returned true, s)
    | Some breaker =>
        let '(ok, breaker) := breaker_check breaker (time_time (world s)) in
        (Returned ok,
         set_circuit_breakers (<[value method := breaker]> (circuit_breakers s)) s)
    end.

Definition _update_circuit_breaker (method : ScrapeMethod) (success : bool)
  : M unit :=
  fun s =>
    match circuit_breakers s !! value method with
    | None => (Returned tt, s)
    | Some breaker =>
        let breaker := breaker_update breaker success (time_time (world s)) in
        (Returned tt,
         set_circuit_breakers (<[value method := breaker]> (circuit_breakers s)) s)
    end.

Definition initial_metrics : Metrics := mkMetrics 0 0 0%Q 0%Q 0%Q.

(** The two divisions raise [ZeroDivisionError] when the request counter is
    0 after its increment; the increments made before stay in the dict. *)
Definition _update_performance_metrics (method : ScrapeMethod)
    (response_time : Q) (success : bool) : M unit :=
  fun s =>
    let method_name := value method in
    let metrics := default initial_metrics (performance_metrics s !! method_name) in
    let requests := m_requests metrics + 1 in
    let total := (m_total_response_time metrics + response_time)%Q in
    let successful :=
      if success then m_successful_requests metrics + 1
      else m_successful_requests metrics in
    if requests =? 0 then
      (Raised (mkExc "ZeroDivisionError" "division by zero"),
       set_performance_metrics
         (<[method_name := mkMetrics requests successful total
                             (m_success_rate metrics)
                             (m_avg_response_time metrics)]>
            (performance_metrics s)) s)
    else
      (Returned tt,
       set_performance_metrics
         (<[method_name := mkMetrics requests successful total
                             (inject_Z successful / inject_Z requests)%Q
                             (total / inject_Z requests)%Q]>
            (performance_metrics s)) s).

(** [extract]: the result, paired with the caller's request object as the
    call leaves it. *)
Definition extract (scrape_request : ScrapeRequest)
  : M (ScrapeRequest * ScrapeResult) :=
  let method := req_method scrape_request in
  let! available := _is_method_available method in
  let method :=
    if bool_decide (method = SCRAPY) && negb available
    then _get_fallback_method scrape_request else method in
  let! admitted := _check_circuit_breaker method in
  let! resolved := (if admitted then ret (Some method)
              else
                let fallback_method := _get_fallback_method scrape_request in
                if bool_decide (fallback_method ≠ method) then
                  let! ok := _check_circuit_breaker fallback_method in
                  ret (if ok then Some fallback_method else None)
                else ret None) in
  match resolved with
  | None =>
      ret (scrape_request,
           failed_result (request_id_str scrape_request)
             "All extraction methods unavailable" "CircuitBreakerError" None)
  | Some method =>
      let! pc := gets proxy_config in
      match pc with
      | Some pc => service_set_proxy_config method pc
      | None => ret tt
      end ;;;
      let! start_time := gets (fun s => time_time (world s)) in
      let scrape_request := set_req_method method scrape_request in
      try_except
        (let! result := service_scrape method scrape_request in
         let! now := gets (fun s => time_time (world s)) in
         _update_performance_metrics method (now - start_time)%Q
           (bool_decide (res_status result = SUCCESS)) ;;;
         _update_circuit_breaker method
           (bool_decide (res_status result = SUCCESS)) ;;;
         ret (scrape_request, result))
        (fun e =>
           _update_circuit_breaker method false ;;;
           let! now := gets (fun s => time_time (world s)) in
           ret (scrape_request,
                failed_result (request_id_str scrape_request)
                  (exc_message e) (exc_type e)
                  (Some (now - start_time)%Q)))
  end.

(** [method_groups]: a dict in insertion order, as an association list. *)
Fixpoint add_to_group (method : ScrapeMethod) (request : ScrapeRequest)
    (groups : list (ScrapeMethod * list ScrapeRequest))
  : list (ScrapeMethod * list ScrapeRequest) :=
  match groups with
  | [] => [(method, [request])]
  | (m, rs) :: groups =>
      if bool_decide (m = method) then (m, rs ++ [request]) :: groups
      else (m, rs) :: add_to_group method request groups
  end.

Definition group_by_method (scrape_requests : list ScrapeRequest)
  : list (ScrapeMethod * list ScrapeRequest) :=
  foldl (fun groups request => add_to_group (req_method request) request groups)
        [] scrape_requests.

(** The error result of a group whose method is unavailable; the f-string
    renders the [str] enum by its value. *)
Definition unavailable_result (method : ScrapeMethod) (request : ScrapeRequest)
  : ScrapeResult :=
  failed_result (request_id_str request)
    ("Method " +:+ value method +:+ " unavailable") "MethodUnavailableError" None.

Definition exception_result (e : PyException) (request : ScrapeRequest)
  : ScrapeResult :=
  failed_result (request_id_str request) (exc_message e) (exc_type e) None.

(** The loop [for method, requests in method_groups.items()], with
    [all_results] as accumulator. *)
Fixpoint process_groups (groups : list (ScrapeMethod * list ScrapeRequest))
    (all_results : list ScrapeResult) : M (list ScrapeResult) :=
  match groups with
  | [] => ret all_results
  | (method, requests) :: groups =>
      let! available := _is_method_available method in
      let! admitted :=
        (if available then _check_circuit_breaker method else ret false) in
      if negb admitted then
        process_groups groups
          (all_results ++ map (unavailable_result method) requests)
      else
        let! pc := gets proxy_config in
        match pc with
        | Some pc => service_set_proxy_config method pc
        | None => ret tt
        end ;;;
        let! results :=
          try_except
            (let! results := service_batch_scrape method requests in
             for_each
               (fun result =>
                  _update_circuit_breaker method
                    (bool_decide (res_status result = SUCCESS)))
               results ;;;
             ret results)
            (fun e =>
               _update_circuit_breaker method false ;;;
               ret (map (exception_result e) requests)) in
        process_groups groups (all_results ++ results)
  end.

Definition batch_extract (scrape_requests : list ScrapeRequest)
  : M (list ScrapeResult) :=
  process_groups (group_by_method scrape_requests) [].

End Orchestrator.

Arguments Orchestrator World : clear implicits.
Arguments M World : clear implicits.

(** ** ProxyConfig.update_health_score *)

(** The proxy object is mutated in place: the record returned is the object
    after the call.  The division raises [ZeroDivisionError] when the
    request counter is 0 after its increment; the two increments have
    happened by then. *)
Definition update_health_score (self : ProxyConfig) (success : bool)
  : Outcome unit * ProxyConfig :=
  let self := set_total_requests (total_requests self + 1) self in
  let self :=
    if negb success then set_failed_requests (failed_requests self + 1) self
    else self in
  if total_requests self =? 0 then
    (Raised (mkExc "ZeroDivisionError" "division by zero"), self)
  else
    let self :=
      set_success_rate
        (inject_Z (total_requests self - failed_requests self)
         / inject_Z (total_requests self))%Q self in
    if success
    then (Returned tt,
          set_health_score (Qmin 1 (health_score self + 0.01)) self)
    else (Returned tt,
          set_health_score (Qmax 0 (health_score self - 0.05)) self).

(** ** ProxyRotator *)

Inductive RotationStrategy :=
  ROUND_ROBIN | LEAST_USED | HEALTH_BASED | RANDOM | STICKY_SESSION | GEOGRAPHIC.

Record ProxyPool := mkProxyPool {
  name : string;
  proxies : list ProxyConfig;
  strategy : RotationStrategy;
  health_check_interval : Z;
  max_concurrent_per_proxy : Z;
  session_timeout : Z
}.

Definition set_proxies (v : list ProxyConfig) (pool : ProxyPool) : ProxyPool :=
  mkProxyPool (name pool) v (strategy pool) (health_check_interval pool)
    (max_concurrent_per_proxy pool) (session_timeout pool).

(** An entry of [self.active_sessions]. *)
Record Session := mkSession {
  proxy_id : string;
  created_at : Q;
  duration : option Z;
  requests : Z
}.

(** The JSON object stored under [proxy_stats:{proxy_id}]; a key that is
    absent is [None]. *)
Record Stats := mkStats {
  st_total_requests : option Z;
  st_current_requests : option Z;
  st_last_used : option Q;
  st_completed_requests : option Z;
  st_successful_requests : option Z;
  st_failed_requests : option Z;
  st_recent_failures : option Z;
  st_response_times : option (list Q);
  st_avg_response_time : option Q
}.

Definition empty_stats : Stats :=
  mkStats None None None None None None None None None.

(** The rotator.  [redis] is the part of the key-value store the rotator
    reads back, the [proxy_stats:*] keys indexed by proxy id; [None] is a
    client that was never connected ([self.redis is None]), on which every
    call raises.  [_save_proxy_config] writes [proxy_config:*] keys only and
    swallows its own exceptions, so it leaves this state alone. *)
Record ProxyRotator := mkProxyRotator {
  redis : option (gmap string Stats);
  pools : gmap string ProxyPool;
  active_sessions : gmap string Session;
  proxy_stats : gmap string Stats
}.

Definition set_redis v (self : ProxyRotator) :=
  mkProxyRotator v (pools self) (active_sessions self) (proxy_stats self).
Definition set_active_sessions v (self : ProxyRotator) :=
  mkProxyRotator (redis self) (pools self) v (proxy_stats self).
Definition set_pools v (self : ProxyRotator) :=
  mkProxyRotator (redis self) v (active_sessions self) (proxy_stats self).

(** [f"{proxy.host}:{proxy.port}:{proxy.proxy_type.value}"] *)
Definition _get_proxy_id (proxy : ProxyConfig) : string :=
  host proxy +:+ ":" +:+ pretty (port proxy) +:+ ":"
  +:+ proxy_type_value (proxy_type proxy).

(** [_get_proxy_stats]: the stored object, [{}] when there is none or when
    the store raises. *)
Definition _get_proxy_stats (self : ProxyRotator) (proxy_id : string) : Stats :=
  match redis self with
  | Some store => default empty_stats (store !! proxy_id)
  | None => empty_stats
  end.

Inductive StatsEvent :=
| selected
| released
| request_completed (success : bool) (response_time : option Q).

(** [response_times[-100:]] *)
Definition last_100 (l : list Q) : list Q :=
  drop (length l - 100)%nat l.

Definition Qsum (l : list Q) : Q := foldl Qplus 0%Q l.

(** The new stats object computed by [_update_proxy_stats]. *)
Definition updated_stats (stats : Stats) (event : StatsEvent) (now : Q) : Stats :=
  match event with
  | selected =>
      mkStats (Some (default 0 (st_total_requests stats) + 1))
              (Some (default 0 (st_current_requests stats) + 1))
              (Some now)
              (st_completed_requests stats) (st_successful_requests stats)
              (st_failed_requests stats) (st_recent_failures stats)
              (st_response_times stats) (st_avg_response_time stats)
  | released =>
      mkStats (st_total_requests stats)
              (Some (Z.max 0 (default 0 (st_current_requests stats) - 1)))
              (st_last_used stats)
              (st_completed_requests stats) (st_successful_requests stats)
              (st_failed_requests stats) (st_recent_failures stats)
              (st_response_times stats) (st_avg_response_time stats)
  | request_completed success response_time =>
      let completed := Some (default 0 (st_completed_requests stats) + 1) in
      let successful :=
        if success then Some (default 0 (st_successful_requests stats) + 1)
        else st_successful_requests stats in
      let failed :=
        if success then st_failed_requests stats
        else Some (default 0 (st_failed_requests stats) + 1) in
      let recent :=
        if success
        then Some (Z.max 0 (default 0 (st_recent_failures stats) - 1))
        else Some (default 0 (st_recent_failures stats) + 1) in
      let timed :=
        match response_time with
        | Some rt => negb (Qeq_bool rt 0)
        | None => false
        end in
      let response_times :=
        if timed
        then Some (last_100 (default [] (st_response_times stats)
                             ++ [default 0%Q response_time]))
        else st_response_times stats in
      let avg :=
        if timed
        then Some (Qsum (default [] response_times)
                   / inject_Z (Z.of_nat (length (default [] response_times))))%Q
        else st_avg_response_time stats in
      mkStats (st_total_requests stats) (st_current_requests stats)
              (st_last_used stats) completed successful failed recent
              response_times avg
  end.

(** [_update_proxy_stats]: read, update, write back.  With no client the
    write raises and the handler of the method drops the update. *)
Definition _update_proxy_stats (self : ProxyRotator) (proxy : ProxyConfig)
    (event : StatsEvent) (now : Q) : ProxyRotator :=
  let proxy_id := _get_proxy_id proxy in
  let stats := updated_stats (_get_proxy_stats self proxy_id) event now in
  match redis self with
  | Some store => set_redis (Some (<[proxy_id := stats]> store)) self
  | None => self
  end.

(** [random.choice(seq)] with the draw made explicit; [None] on an empty
    sequence, where Python raises [IndexError]. *)
Definition random_choice {A} (seq : list A) (draw : nat) : option A :=
  seq !! (draw mod length seq)%nat.

(** [min(values)], [None] on an empty sequence. *)
Definition min_of (values : list Z) : option Z :=
  match values with
  | [] => None
  | v :: values => Some (foldl Z.min v values)
  end.

(** The loop of the [HEALTH_BASED] strategy. *)
Definition best_by_health (proxy_list : list ProxyConfig) : option ProxyConfig :=
  snd (foldl
         (fun '(best_score, best_proxy) proxy =>
            let score :=
              (health_score proxy * 0.7 + success_rate proxy * 0.3)%Q in
            if Qltb best_score score then (score, Some proxy)
            else (best_score, best_proxy))
         ((-1)%Q, None) proxy_list).

(** [country_counts]: a dict in insertion order. *)
Fixpoint count_country (c : string) (counts : list (string * Z))
  : list (string * Z) :=
  match counts with
  | [] => [(c, 1)]
  | (c', n) :: counts =>
      if String.eqb c' c then (c', n + 1) :: counts
      else (c', n) :: count_country c counts
  end.

(** [proxy.country or "unknown"] *)
Definition country_or_unknown (proxy : ProxyConfig) : string :=
  match country proxy with
  | Some c => if String.eqb c EmptyString then "unknown" else c
  | None => "unknown"
  end.

(** [_select_proxy]; [draw1] and [draw2] are the draws of the calls to
    [random.choice], in order.  Where Python raises on an empty list the
    model returns [None]; [get_proxy] never passes one. *)
Definition _select_proxy (self : ProxyRotator) (proxy_list : list ProxyConfig)
    (strategy : RotationStrategy) (draw1 draw2 : nat) : option ProxyConfig :=
  match strategy with
  | RANDOM => random_choice proxy_list draw1
  | ROUND_ROBIN =>
      let usage p :=
        default 0 (st_total_requests (_get_proxy_stats self (_get_proxy_id p))) in
      min_usage ← min_of (map usage proxy_list);
      random_choice
        (filter (fun p => usage p = min_usage) proxy_list) draw1
  | LEAST_USED =>
      let usage p :=
        default 0 (st_current_requests (_get_proxy_stats self (_get_proxy_id p))) in
      min_usage ← min_of (map usage proxy_list);
      random_choice
        (filter (fun p => usage p = min_usage) proxy_list) draw1
  | HEALTH_BASED => best_by_health proxy_list
  | GEOGRAPHIC =>
      let country_counts :=
        foldl (fun counts p => count_country (country_or_unknown p) counts)
              [] proxy_list in
      min_count ← min_of (map snd country_counts);
      let preferred_countries :=
        map fst (filter (fun cn => snd cn = min_count) country_counts) in
      preferred_country ← random_choice preferred_countries draw1;
      random_choice
        (filter (fun p => country_or_unknown p = preferred_country) proxy_list)
        draw2
  | STICKY_SESSION => random_choice proxy_list draw1
  end.

(** [str.lower()] on ASCII letters. *)
Definition lower_ascii (c : ascii) : ascii :=
  let n := nat_of_ascii c in
  if ((65 <=? n) && (n <=? 90))%nat then ascii_of_nat (n + 32) else c.

Fixpoint lower (s : string) : string :=
  match s with
  | EmptyString => EmptyString
  | String c s => String (lower_ascii c) (lower s)
  end.

(** Truthiness of an [Optional[str]] argument. *)
Definition truthy_str (s : option string) : option string :=
  match s with
  | Some v => if String.eqb v EmptyString then None else Some v
  | None => None
  end.

(** [p.country and p.country.lower() == country.lower()] *)
Definition country_matches (c : string) (p : ProxyConfig) : bool :=
  match truthy_str (country p) with
  | Some pc => String.eqb (lower pc) (lower c)
  | None => false
  end.

(** [get_proxy]; [now] is the reading of [time.time()], taken to be the
    same wherever the call reads the clock. *)
Definition get_proxy (self : ProxyRotator) (pool_name : string)
    (session_id country_arg : option string) (sticky_duration : option Z)
    (now : Q) (draw1 draw2 : nat) : option ProxyConfig * ProxyRotator :=
  match pools self !! pool_name with
  | None => (None, self)
  | Some pool =>
      let sticky :=
        sid ← truthy_str session_id;
        session ← active_sessions self !! sid;
        if Qltb (now - created_at session)%Q
                (inject_Z (default (session_timeout pool) (duration session)))
        then
          proxy ← head (filter (fun p => _get_proxy_id p = proxy_id session)
                               (proxies pool));
          if bool_decide (status proxy = ACTIVE) then Some proxy else None
        else None in
      match sticky with
      | Some proxy => (Some proxy, self)
      | None =>
          let available_proxies :=
            filter (fun p => status p = ACTIVE) (proxies pool) in
          let available_proxies :=
            match truthy_str country_arg with
            | Some c =>
                filter (fun p => country_matches c p = true) available_proxies
            | None => available_proxies
            end in
          match available_proxies with
          | [] => (None, self)
          | _ =>
              match _select_proxy self available_proxies (strategy pool)
                      draw1 draw2 with
              | None => (None, self)
              | Some proxy =>
                  let self :=
                    match truthy_str session_id with
                    | Some sid =>
                        let d :=
                          match sticky_duration with
                          | Some d => if d =? 0 then session_timeout pool else d
                          | None => session_timeout pool
                          end in
                        set_active_sessions
                          (<[sid := mkSession (_get_proxy_id proxy) now
                                      (Some d) 0]> (active_sessions self)) self
                    | None => self
                    end in
                  (Some proxy, _update_proxy_stats self proxy selected now)
              end
          end
      end
  end.

(** [release_proxy]; nothing inside its [try] raises. *)
Definition release_proxy (self : ProxyRotator) (proxy : ProxyConfig)
    (session_id : option string) (now : Q) : ProxyRotator :=
  let self := _update_proxy_stats self proxy released now in
  match truthy_str session_id with
  | Some sid =>
      if bool_decide (is_Some (active_sessions self !! sid))
      then set_active_sessions (delete sid (active_sessions self)) self
      else self
  | None => self
  end.

(** Status derived in [report_proxy_result]. *)
Definition report_status (health : Q) : ProxyStatus :=
  if Qltb health 0.3 then BLOCKED
  else if Qltb health 0.5 then RATE_LIMITED
  else ACTIVE.

(** Status derived in [_health_check_pool]. *)
Definition health_check_status (health : Q) : ProxyStatus :=
  if Qltb health 0.2 then BLOCKED
  else if Qltb health 0.4 then RATE_LIMITED
  else ACTIVE.

(** [report_proxy_result]: the rotator and the proxy object after the call.
    An exception of [update_health_score] ends the [try] block at once: the
    handler logs it and the status is left as it was. *)
Definition report_proxy_result (self : ProxyRotator) (proxy : ProxyConfig)
    (success : bool) (response_time : option Q) (now : Q)
  : ProxyRotator * ProxyConfig :=
  match update_health_score proxy success with
  | (Raised _, proxy) => (self, proxy)
  | (Returned _, proxy) =>
      let self :=
        _update_proxy_stats self proxy
          (request_completed success response_time) now in
      (self, set_status (report_status (health_score proxy)) proxy)
  end.

(** One turn of the loop of [_health_check_pool] on a proxy object. *)
Definition health_check_proxy (proxy : ProxyConfig) : ProxyConfig :=
  if bool_decide (status proxy = PROXY_FAILED) then proxy
  else set_status (health_check_status (health_score proxy)) proxy.

(** [_health_check_pool]: the pool with its proxy objects after the sweep. *)
Definition _health_check_pool (pool : ProxyPool) : ProxyPool :=
  set_proxies (map health_check_proxy (proxies pool)) pool.

(** A run of [report_proxy_result] calls on one proxy object: the object
    after each call, in order. *)
Fixpoint report_trace (self : ProxyRotator) (proxy : ProxyConfig)
    (calls : list (bool * option Q * Q)) : list ProxyConfig :=
  match calls with
  | [] => []
  | (success, response_time, now) :: calls =>
      let '(self, proxy) :=
        report_proxy_result self proxy success response_time now in
      proxy :: report_trace self proxy calls
  end.

(** * Sample data *)


(** Number of admitted calls in a run of checks. *)
Definition admitted (oks : list bool) : nat :=
  length (List.filter (fun ok : bool => ok) oks).

(** The breakers the orchestrator can hold: the one [initialize] installs,
    and whatever [_check_circuit_breaker] and [_update_circuit_breaker] make
    of it. *)
Inductive reachable : Breaker -> Prop :=
| reach_init : reachable initial_breaker
| reach_check b t : reachable b -> reachable (snd (breaker_check b t))
| reach_update b ok t : reachable b -> reachable (breaker_update b ok t).

(** Two datacenter proxies, a health-based pool holding both, and a rotator
    in which session ["s1"] is pinned to the second one. *)
Definition proxy_a : ProxyConfig :=
  mkProxyConfig "a.example.com" 8080 HTTP DATACENTER None None (Some "US")
    None None ACTIVE 0.9 1 None None 0 0 None None.

Definition proxy_b : ProxyConfig :=
  mkProxyConfig "b.example.com" 8081 HTTP DATACENTER None None (Some "DE")
    None None ACTIVE 0.5 1 None None 0 0 None None.

Definition sample_pool : ProxyPool :=
  mkProxyPool "default" [proxy_a; proxy_b] HEALTH_BASED 300 5 1800.

Definition sample_rotator : ProxyRotator :=
  mkProxyRotator
    (Some {[ _get_proxy_id proxy_b := updated_stats empty_stats selected 0 ]})
    {[ "default" := sample_pool ]}
    {[ "s1" := mkSession (_get_proxy_id proxy_b) 0 (Some 1800) 0 ]}
    ∅.


(** ** The orchestrator as [__init__] and [initialize] leave it *)

(** [self.services] holds a service for each of the three methods. *)
Definition services_complete {World} (s : Orchestrator World) : Prop :=
  forall m : ScrapeMethod, is_Some (services s !! value m).




(** A world for examples: the world is the clock, every extraction
    succeeds and takes one second. *)
Definition success_result (r : ScrapeRequest) : ScrapeResult :=
  mkScrapeResult (request_id_str r) SUCCESS (Some 200) ∅ None ∅ None [] []
    None None None None None None None 0 None None None.

Definition sample_env : Environment Q :=
  {| time_time w := w;
     scrape _ _ r w := (Returned (success_result r), (w + 1)%Q);
     batch_scrape _ _ rs w := (Returned (map success_result rs), (w + 1)%Q) |}.

Definition sample_request (id : string) (m : ScrapeMethod) : ScrapeRequest :=
  mkScrapeRequest (Some id) 0 0 ∅ "https://example.com" m NORMAL AUTH_NONE
    None ∅ ∅ ∅ [] 30 true None true true 3 5 false false true None ∅.

(** An orchestrator at time 100 with the three services and the given
    breakers for scrapy, pydoll and playwright. *)
Definition sample_orchestrator (scrapy pydoll playwright : Breaker)
  : Orchestrator Q :=
  mkOrchestrator
    (<["scrapy" := mkService None]>
       (<["pydoll" := mkService None]>
          (<["playwright" := mkService None]> ∅)))
    None ∅
    (<["scrapy" := scrapy]>
       (<["pydoll" := pydoll]> (<["playwright" := playwright]> ∅)))
    100%Q [].

(** A breaker that opened at time 90 and one that opened at time 0. *)
Definition open_breaker : Breaker := mkBreaker "open" 5 90 5 60 3 None.
Definition stale_open_breaker : Breaker := mkBreaker "open" 5 0 5 60 3 None.


(** The part of [extract] that follows the choice of the backend: proxy
    configuration, the timed call inside [try], and the two ways out. *)
Definition dispatch {World} `{Environment World} (method : ScrapeMethod)
    (scrape_request : ScrapeRequest)
  : M World (ScrapeRequest * ScrapeResult) :=
  bind (gets proxy_config) (fun pc =>
  bind (match pc with
        | Some pc => service_set_proxy_config method pc
        | None => ret tt
        end) (fun _ =>
  bind (gets (fun s => time_time (world s))) (fun start_time =>
  let scrape_request := set_req_method method scrape_request in
  try_except
    (bind (service_scrape method scrape_request) (fun result =>
     bind (gets (fun s => time_time (world s))) (fun now =>
     bind (_update_performance_metrics method (now - start_time)%Q
             (bool_decide (res_status result = SUCCESS))) (fun _ =>
     bind (_update_circuit_breaker method
             (bool_decide (res_status result = SUCCESS))) (fun _ =>
     ret (scrape_request, result))))))
    (fun e =>
       bind (_update_circuit_breaker method false) (fun _ =>
       bind (gets (fun s => time_time (world s))) (fun now =>
       ret (scrape_request,
            failed_result (request_id_str scrape_request)
              (exc_message e) (exc_type e)
              (Some (now - start_time)%Q)))))))).

(** The result [extract] returns when no backend admits the request. *)
Definition rejected_result (scrape_request : ScrapeRequest) : ScrapeResult :=
  failed_result (request_id_str scrape_request)
    "All extraction methods unavailable" "CircuitBreakerError" None.


(** What [extract] hands back once a backend is chosen: the request with
    that backend as its method, and the result the extractor returned or a
    failed result made from an exception. *)
Definition dispatched {World} `{Environment World} (m : ScrapeMethod)
    (r : ScrapeRequest) (a : ScrapeRequest * ScrapeResult) : Prop :=
  fst a = set_req_method m r
  /\ ((exists svc w, fst (scrape m svc (set_req_method m r) w) = Returned (snd a))
      \/ exists e, snd a = failed_result (request_id_str r) (exc_message e)
                             (exc_type e) (res_response_time (snd a))).


(** The requests of a batch that go to backend [m], in their order. *)
Definition requests_for (m : ScrapeMethod) (rs : list ScrapeRequest)
  : list ScrapeRequest :=
  filter (fun r => req_method r = m) rs.


(** The backends of a batch in the order in which they first occur. *)
Definition backends_in_order (rs : list ScrapeRequest) : list ScrapeMethod :=
  foldl (fun seen r =>
           if bool_decide (req_method r ∈ seen) then seen
           else seen ++ [req_method r]) [] rs.

(** Groups as [batch_extract] builds them: one per backend, each holding
    requests of its backend only. *)
Definition well_grouped (groups : list (ScrapeMethod * list ScrapeRequest))
  : Prop :=
  NoDup (map fst groups)
  /\ Forall (fun g => Forall (fun r => req_method r = fst g) (snd g)) groups.


(** * Further operations of the orchestrator *)

Inductive ExtractionStrategy :=
  SPEED_FIRST | QUALITY_FIRST | COST_OPTIMIZED | RELIABILITY_FIRST.

(** [needle in haystack] on strings. *)
Definition contains (needle haystack : string) : bool :=
  match String.index 0 needle haystack with
  | Some _ => true
  | None => false
  end.

(** [ScrapeMethod(method_name)]: the member with that value, [ValueError]
    for any other string. *)
Definition method_of_name (method_name : string) : Outcome ScrapeMethod :=
  if String.eqb method_name "scrapy" then Returned SCRAPY
  else if String.eqb method_name "pydoll" then Returned PYDOLL
  else if String.eqb method_name "playwright" then Returned PLAYWRIGHT
  else Raised (mkExc "ValueError"
                 ("'" +:+ method_name +:+ "' is not a valid ScrapeMethod")).

(** The score of [_get_best_performing_method]:
    [success_rate * 0.7 + (1 / (avg_response_time + 1)) * 0.3]. *)
Definition performance_score (metrics : Metrics) : Q :=
  (m_success_rate metrics * 0.7
   + (1 / (m_avg_response_time metrics + 1)) * 0.3)%Q.

(** The loop of [_get_best_performing_method] over the items of
    [self.performance_metrics] that are left, with [best_score] and
    [best_method] as they stand.  The division raises when the average is
    -1, the enum lookup when the key is no method value. *)
Fixpoint best_performing (items : list (string * Metrics)) (best_score : Q)
    (best_method : option ScrapeMethod) : Outcome (option ScrapeMethod) :=
  match items with
  | [] => Returned best_method
  | (method_name, metrics) :: items =>
      if m_requests metrics <? 10
      then best_performing items best_score best_method
      else if Qeq_bool (m_avg_response_time metrics + 1) 0
      then Raised (mkExc "ZeroDivisionError" "float division by zero")
      else
        let score := performance_score metrics in
        if Qltb best_score score then
          match method_of_name method_name with
          | Returned m => best_performing items score (Some m)
          | Raised e => Raised e
          end
        else best_performing items best_score best_method
  end.

(** [_get_best_performing_method]; [items] is
    [self.performance_metrics.items()], the entries in the order in which
    the dict holds them (an empty dict returns [None] at once, as the empty
    loop does). *)
Definition _get_best_performing_method (items : list (string * Metrics))
  : Outcome (option ScrapeMethod) :=
  best_performing items 0%Q None.

(** [any(condition for condition in wait_conditions if "networkidle" in
    condition or "javascript" in condition)]: [any] tests the truth of the
    strings the generator lets through. *)
Definition has_javascript (r : ScrapeRequest) : bool :=
  existsb (fun condition => negb (String.eqb condition EmptyString))
    (List.filter (fun condition => contains "networkidle" condition
                                   || contains "javascript" condition)
       (req_wait_conditions r)).

Definition needs_authentication (r : ScrapeRequest) : bool :=
  match req_auth_type r with AUTH_NONE => false | _ => true end.

Definition needs_complex_interaction (r : ScrapeRequest) : bool :=
  (2 <? length (req_wait_conditions r))%nat.

Definition is_high_priority (r : ScrapeRequest) : bool :=
  match req_priority r with HIGH | URGENT => true | _ => false end.

(** [suggest_method]; [items] as for [_get_best_performing_method]. *)
Definition suggest_method (items : list (string * Metrics))
    (scrape_request : ScrapeRequest) (strategy : ExtractionStrategy)
  : Outcome ScrapeMethod :=
  match strategy with
  | SPEED_FIRST =>
      if has_javascript scrape_request || needs_authentication scrape_request
         || needs_complex_interaction scrape_request
      then Returned PLAYWRIGHT
      else if is_high_priority scrape_request then Returned PYDOLL
      else Returned SCRAPY
  | QUALITY_FIRST =>
      if has_javascript scrape_request || needs_authentication scrape_request
      then Returned PLAYWRIGHT
      else if bool_decide (req_selectors scrape_request ≠ ∅)
      then Returned PYDOLL
      else Returned SCRAPY
  | COST_OPTIMIZED =>
      if negb (has_javascript scrape_request)
         && negb (needs_authentication scrape_request)
      then Returned SCRAPY
      else if negb (needs_complex_interaction scrape_request)
      then Returned PYDOLL
      else Returned PLAYWRIGHT
  | RELIABILITY_FIRST =>
      match _get_best_performing_method items with
      | Returned (Some best_method) => Returned best_method
      | Returned None => Returned PLAYWRIGHT
      | Raised e => Raised e
      end
  end.

Section OrchestratorMore.
Context {World : Type} `{Env : Environment World}.

(** The loop of [initialize] that installs a fresh breaker for every
    [ScrapeMethod]. *)
Definition initialize_circuit_breakers : M World unit :=
  modify (fun s =>
    set_circuit_breakers
      (foldl (fun breakers method => <[value method := initial_breaker]> breakers)
             (circuit_breakers s) all_methods) s).

(** The orchestrator after the proxy step of [extract] for backend
    [method]: with a proxy configured the service object holds it. *)
Definition after_set_proxy (method : ScrapeMethod) (s : Orchestrator World)
  : Orchestrator World :=
  match proxy_config s with
  | Some pc =>
      log_invocation (CallSetProxyConfig method)
        (set_services (<[value method := mkService (Some pc)]> (services s)) s)
  | None => s
  end.

(** A run of [_update_performance_metrics] calls for one backend. *)
Definition record_metrics (method : ScrapeMethod) (calls : list (Q * bool))
  : M World unit :=
  for_each (fun call => _update_performance_metrics method (fst call) (snd call))
           calls.

(** A run of [_update_circuit_breaker] calls for one backend. *)
Definition record_outcomes (method : ScrapeMethod) (outcomes : list bool)
  : M World unit :=
  for_each (_update_circuit_breaker method) outcomes.

End OrchestratorMore.


(** * Further operations of the rotator and of the proxy record *)


(** [validate_score], the validator of [health_score] and [success_rate]. *)
Definition validate_score (v : Q) : Outcome Q :=
  if Qle_bool 0 v && Qle_bool v 1 then Returned v
  else Raised (mkExc "ValueError" "Score must be between 0.0 and 1.0").

(** A run of [update_health_score] calls on one proxy object, up to the
    first call that raises. *)
Fixpoint update_health_scores (self : ProxyConfig) (outcomes : list bool)
  : Outcome unit * ProxyConfig :=
  match outcomes with
  | [] => (Returned tt, self)
  | success :: outcomes =>
      match update_health_score self success with
      | (Returned _, self) => update_health_scores self outcomes
      | (Raised e, self) => (Raised e, self)
      end
  end.



Definition set_proxy_stats v (self : ProxyRotator) :=
  mkProxyRotator (redis self) (pools self) (active_sessions self) v.

(** [add_proxy_pool]; saving the pool to the store is guarded and writes
    [proxy_pool:*] keys only. *)
Definition add_proxy_pool (self : ProxyRotator) (pool : ProxyPool)
  : ProxyRotator :=
  set_pools (<[name pool := pool]> (pools self)) self.

(** [remove_proxy_pool]: the pool is dropped first, then the store is asked
    to delete its key, outside any [try]; without a client that call raises
    [AttributeError]. *)
Definition remove_proxy_pool (self : ProxyRotator) (pool_name : string)
  : Outcome unit * ProxyRotator :=
  match pools self !! pool_name with
  | None => (Returned tt, self)
  | Some _ =>
      let self := set_pools (delete pool_name (pools self)) self in
      match redis self with
      | Some _ => (Returned tt, self)
      | None =>
          (Raised (mkExc "AttributeError"
                     "'NoneType' object has no attribute 'delete'"), self)
      end
  end.

(** [pool.strategy.value] *)
Definition strategy_value (s : RotationStrategy) : string :=
  match s with
  | ROUND_ROBIN => "round_robin" | LEAST_USED => "least_used"
  | HEALTH_BASED => "health_based" | RANDOM => "random"
  | STICKY_SESSION => "sticky_session" | GEOGRAPHIC => "geographic"
  end.

(** The dict [get_pool_status] returns for a pool it knows. *)
Record PoolStatus := mkPoolStatus {
  ps_name : string;
  ps_strategy : string;
  ps_total_proxies : nat;
  ps_active_proxies : nat;
  ps_blocked_proxies : nat;
  ps_failed_proxies : nat;
  ps_active_sessions : nat
}.

Definition count_status (v : ProxyStatus) (l : list ProxyConfig) : nat :=
  length (filter (fun p => status p = v) l).

(** [get_pool_status]: [None] stands for [{"error": "Pool not found"}]. *)
Definition get_pool_status (self : ProxyRotator) (pool_name : string)
  : option PoolStatus :=
  pool ← pools self !! pool_name;
  Some (mkPoolStatus (name pool) (strategy_value (strategy pool))
          (length (proxies pool))
          (count_status ACTIVE (proxies pool))
          (count_status BLOCKED (proxies pool))
          (count_status PROXY_FAILED (proxies pool))
          (size (active_sessions self))).

(** The answers of the VPN manager to [rotate_server()], which catches
    what its integration raises, and to the [get_proxy_config()] that
    follows, which does not. *)
Record VPNManager := mkVPNManager {
  vpn_rotate_server : bool;
  vpn_get_proxy_config : Outcome (option ProxyConfig)
}.

(** One turn of the loop of [_add_vpn_proxy_to_pools]. *)
Definition add_vpn_proxy (vpn_proxy : ProxyConfig) (pool : ProxyPool)
  : ProxyPool :=
  set_proxies
    (filter (fun p => provider p ≠ PRIVATE_INTERNET_ACCESS) (proxies pool)
     ++ [vpn_proxy]) pool.

Definition _add_vpn_proxy_to_pools (self : ProxyRotator)
    (vpn_proxy : ProxyConfig) : ProxyRotator :=
  set_pools (add_vpn_proxy vpn_proxy <$> pools self) self.

(** [stats["recent_failures"] = 0] *)
Definition reset_recent_failures (stats : Stats) : Stats :=
  mkStats (st_total_requests stats) (st_current_requests stats)
    (st_last_used stats) (st_completed_requests stats)
    (st_successful_requests stats) (st_failed_requests stats) (Some 0)
    (st_response_times stats) (st_avg_response_time stats).

(** The sum of [recent_failures] over [self.proxy_stats]. *)
Definition recent_failures_total (self : ProxyRotator) : Z :=
  map_fold (fun _ stats total => total + default 0 (st_recent_failures stats))
           0 (proxy_stats self).

(** [rotate_vpn_if_needed]; [vpn_manager] is [self.vpn_manager].  An
    exception of [get_proxy_config] is caught by the handler of the method,
    after the counters have been reset. *)
Definition rotate_vpn_if_needed (self : ProxyRotator)
    (vpn_manager : option VPNManager) (failure_threshold : Z)
  : bool * ProxyRotator :=
  match vpn_manager with
  | None => (false, self)
  | Some vpn =>
      if failure_threshold <=? recent_failures_total self then
        if vpn_rotate_server vpn then
          let self :=
            set_proxy_stats (reset_recent_failures <$> proxy_stats self) self in
          match vpn_get_proxy_config vpn with
          | Returned (Some vpn_proxy) =>
              (true, _add_vpn_proxy_to_pools self vpn_proxy)
          | Returned None => (true, self)
          | Raised _ => (false, self)
          end
        else (false, self)
      else (false, self)
  end.

(** The blended score of the [HEALTH_BASED] strategy. *)
Definition health_blend (proxy : ProxyConfig) : Q :=
  (health_score proxy * 0.7 + success_rate proxy * 0.3)%Q.

(** A run of [report_proxy_result] calls on one proxy object: the rotator
    and the object at the end. *)
Fixpoint report_results (self : ProxyRotator) (proxy : ProxyConfig)
    (calls : list (bool * option Q * Q)) : ProxyRotator * ProxyConfig :=
  match calls with
  | [] => (self, proxy)
  | (success, response_time, now) :: calls =>
      let '(self, proxy) :=
        report_proxy_result self proxy success response_time now in
      report_results self proxy calls
  end.



(** What holds of every breaker the orchestrator can hold. *)
Record breaker_wf (b : Breaker) : Prop := mk_breaker_wf {
  wf_state : state b = "closed" \/ state b = "open" \/ state b = "half_open";
  wf_threshold : failure_threshold b = 5;
  wf_timeout : recovery_timeout b = 60%Q;
  wf_max_calls : half_open_max_calls b = 3;
  wf_count : 0 <= failure_count b;
  wf_closed : state b = "closed" -> failure_count b < 5;
  wf_tripped : state b = "open" \/ state b = "half_open" -> 5 <= failure_count b;
  wf_probes : state b = "half_open" ->
              exists calls, half_open_calls b = Some calls /\ 0 <= calls <= 3
}.


(** The breaker of backend [m] is open and its recovery timeout has not
    elapsed on the clock of the world. *)
Definition breaker_rejects {World} `{Environment World}
    (s : Orchestrator World) (m : ScrapeMethod) : Prop :=
  exists b, circuit_breakers s !! value m = Some b
            /\ state b = "open"
            /\ Qltb (recovery_timeout b)
                    (time_time (world s) - last_failure_time b)%Q = false.

(** The service object of backend [m] as the proxy step of [extract]
    leaves it. *)
Definition service_after_set_proxy {World} (s : Orchestrator World)
    (svc : Service) : Service :=
  match proxy_config s with
  | Some pc => mkService (Some pc)
  | None => svc
  end.


(** The calls of [batch_scrape] in a trace, in order. *)
Definition batch_calls (trace : list Invocation)
  : list (ScrapeMethod * list ScrapeRequest) :=
  omap (fun i => match i with
                 | CallBatchScrape m rs => Some (m, rs)
                 | _ => None
                 end) trace.

(** The breaker after the outcomes of a batch have been recorded on it at
    time [now], one per result. *)
Definition record_results (b : Breaker) (results : list ScrapeResult) (now : Q)
  : Breaker :=
  foldl (fun b result =>
           breaker_update b (bool_decide (res_status result = SUCCESS)) now)
        b results.


(** Lifetime and in-flight request counts of a proxy in the stats store,
    as the [ROUND_ROBIN] and [LEAST_USED] strategies read them. *)
Definition lifetime_requests (self : ProxyRotator) (p : ProxyConfig) : Z :=
  default 0 (st_total_requests (_get_proxy_stats self (_get_proxy_id p))).

Definition in_flight_requests (self : ProxyRotator) (p : ProxyConfig) : Z :=
  default 0 (st_current_requests (_get_proxy_stats self (_get_proxy_id p))).



(** A world for examples in which every extraction times out after one
    second, and an orchestrator that holds services but no breakers, as
    between [__init__] and the end of [initialize]. *)
Definition timeout_error : PyException := mkExc "TimeoutError" "timed out".

Definition failing_env : Environment Q :=
  {| time_time w := w;
     scrape _ _ _ w := (Raised timeout_error, (w + 1)%Q);
     batch_scrape _ _ _ w := (Raised timeout_error, (w + 1)%Q) |}.

Definition fresh_orchestrator : Orchestrator Q :=
  sample_orchestrator initial_breaker initial_breaker initial_breaker.

Definition bare_orchestrator : Orchestrator Q :=
  set_circuit_breakers ∅ fresh_orchestrator.

(** A rotator whose only pool holds one blocked proxy. *)
Definition blocked_rotator : ProxyRotator :=
  mkProxyRotator None
    {[ "default" :=
         mkProxyPool "default" [set_status BLOCKED proxy_a] RANDOM 300 5 1800 ]}
    ∅ ∅.

(** * Properties *)

(** ** Comparisons on [Q] *)

Lemma Qltb_lt a b : Qltb a b = true <-> (a < b)%Q.
Proof.
  unfold Qltb. rewrite negb_true_iff, <- not_true_iff_false, Qle_bool_iff.
  split; [apply Qnot_le_lt | apply Qlt_not_le].
Qed.

Lemma Qltb_ge a b : Qltb a b = false <-> (b <= a)%Q.
Proof. unfold Qltb. now rewrite negb_false_iff, Qle_bool_iff. Qed.

(** ** Circuit breaker *)


Lemma record_failures_snoc b ts t :
  record_failures b (ts ++ [t]) = breaker_update (record_failures b ts) false t.
Proof. unfold record_failures. now rewrite foldl_app. Qed.

Lemma breaker_update_threshold b ok t :
  failure_threshold (breaker_update b ok t) = failure_threshold b.
Proof.
  unfold breaker_update. destruct ok; simpl.
  - repeat (destruct (String.eqb _ _)); reflexivity.
  - destruct (_ <=? _); reflexivity.
Qed.

Lemma record_failures_threshold b ts :
  failure_threshold (record_failures b ts) = failure_threshold b.
Proof.
  induction ts as [|t ts IH] using rev_ind; [reflexivity|].
  now rewrite record_failures_snoc, breaker_update_threshold.
Qed.

Lemma record_failures_count b ts :
  failure_count (record_failures b ts) = failure_count b + Z.of_nat (length ts).
Proof.
  induction ts as [|t ts IH] using rev_ind; [simpl; lia|].
  rewrite record_failures_snoc, length_app. simpl length.
  unfold breaker_update. simpl. destruct (_ <=? _); simpl; lia.
Qed.

(** Failures below the threshold leave the state as it is. *)
Lemma record_failures_below b ts :
  failure_count b + Z.of_nat (length ts) < failure_threshold b ->
  state (record_failures b ts) = state b.
Proof.
  induction ts as [|t ts IH] using rev_ind; [reflexivity|].
  rewrite length_app. simpl length. intros Hlt.
  rewrite record_failures_snoc. unfold breaker_update. simpl.
  rewrite record_failures_threshold, record_failures_count.
  destruct (Z.leb_spec (failure_threshold b)
              (failure_count b + Z.of_nat (length ts) + 1)); [lia|].
  simpl. apply IH. lia.
Qed.

(** The failure that brings the count to the threshold, and every one
    after it, leaves the breaker open. *)
Lemma record_failures_reached b ts :
  ts <> [] ->
  failure_threshold b <= failure_count b + Z.of_nat (length ts) ->
  state (record_failures b ts) = "open".
Proof.
  destruct ts as [|t ts _] using rev_ind; [congruence|]. intros _.
  rewrite length_app. simpl length. intros Hge.
  rewrite record_failures_snoc. unfold breaker_update. simpl.
  rewrite record_failures_threshold, record_failures_count.
  destruct (Z.leb_spec (failure_threshold b)
              (failure_count b + Z.of_nat (length ts) + 1)); [reflexivity|lia].
Qed.

Lemma failures_from_zero b ts :
  state b = "closed" -> failure_count b = 0 -> failure_threshold b = 5 ->
  state (record_failures b ts)
  = if 5 <=? Z.of_nat (length ts) then "open" else "closed".
Proof.
  intros Hs Hc Ht. destruct (Z.leb_spec 5 (Z.of_nat (length ts))).
  - apply record_failures_reached; [|lia]. destruct ts; simpl in *; [lia|easy].
  - rewrite record_failures_below; [assumption|lia].
Qed.











(** ** Proxy health *)

Lemma Qmin_spec a b : (Qmin a b <= a /\ Qmin a b <= b
                       /\ (Qmin a b = a \/ Qmin a b = b))%Q.
Proof.
  unfold Qmin. destruct (Qle_bool a b) eqn:E.
  - apply Qle_bool_iff in E. repeat split; [lra | exact E | now left].
  - apply not_true_iff_false in E. rewrite Qle_bool_iff in E.
    apply Qnot_le_lt in E. repeat split; [lra | lra | now right].
Qed.

Lemma Qmax_spec a b : (a <= Qmax a b /\ b <= Qmax a b
                       /\ (Qmax a b = a \/ Qmax a b = b))%Q.
Proof.
  unfold Qmax. destruct (Qle_bool a b) eqn:E.
  - apply Qle_bool_iff in E. repeat split; [exact E | lra | now right].
  - apply not_true_iff_false in E. rewrite Qle_bool_iff in E.
    apply Qnot_le_lt in E. repeat split; [lra | lra | now left].
Qed.


(** What one call of [report_proxy_result] does to a proxy whose request
    counter is not negative. *)
Lemma report_proxy_result_step self p ok rt now :
  0 <= total_requests p ->
  let q := snd (report_proxy_result self p ok rt now) in
  health_score q
  = (if ok then Qmin 1 (health_score p + 0.01)
     else Qmax 0 (health_score p - 0.05))%Q
  /\ status q = report_status (health_score q)
  /\ total_requests q = total_requests p + 1.
Proof.
  intros Ht. unfold report_proxy_result, update_health_score.
  destruct ok; simpl;
    (destruct (Z.eqb_spec (total_requests p + 1) 0); [lia|]);
    simpl; auto.
Qed.



(** The statuses along that run: 0.45 and 0.40 are rate-limited, and so is
    0.41 after the success. *)
Example report_trace_sample :
  map status
    (report_trace sample_rotator proxy_b
       [(false, None, 1%Q); (false, None, 2%Q); (true, Some 1.5%Q, 3%Q)])
  = [RATE_LIMITED; RATE_LIMITED; RATE_LIMITED].
Proof. reflexivity. Qed.

(** ** Health sweep against the report path *)

Lemma report_status_cases h :
  (report_status h = BLOCKED <-> (h < 0.3)%Q)
  /\ (report_status h = RATE_LIMITED <-> (0.3 <= h < 0.5)%Q)
  /\ (report_status h = ACTIVE <-> (0.5 <= h)%Q).
Proof.
  unfold report_status.
  destruct (Qltb h 0.3) eqn:L3; [apply Qltb_lt in L3 | apply Qltb_ge in L3];
    (destruct (Qltb h 0.5) eqn:L5; [apply Qltb_lt in L5 | apply Qltb_ge in L5]);
    repeat split; intros; try discriminate; try lra; try reflexivity.
Qed.

Lemma health_check_status_cases h :
  (health_check_status h = BLOCKED <-> (h < 0.2)%Q)
  /\ (health_check_status h = RATE_LIMITED <-> (0.2 <= h < 0.4)%Q)
  /\ (health_check_status h = ACTIVE <-> (0.4 <= h)%Q).
Proof.
  unfold health_check_status.
  destruct (Qltb h 0.2) eqn:L2; [apply Qltb_lt in L2 | apply Qltb_ge in L2];
    (destruct (Qltb h 0.4) eqn:L4; [apply Qltb_lt in L4 | apply Qltb_ge in L4]);
    repeat split; intros; try discriminate; try lra; try reflexivity.
Qed.

(** The sweep assigns [health_check_status] to every proxy that is not
    marked failed, and leaves a failed one alone. *)
Lemma health_check_pool_status pool :
  map status (proxies (_health_check_pool pool))
  = map (fun p => if bool_decide (status p = PROXY_FAILED) then PROXY_FAILED
                  else health_check_status (health_score p))
        (proxies pool).
Proof.
  unfold _health_check_pool. simpl. rewrite map_map.
  apply map_ext. intros p. unfold health_check_proxy.
  destruct (bool_decide_reflect (status p = PROXY_FAILED)); auto.
Qed.

(** C8 (as the code has it).  The sweep derives the status with its own
    thresholds: blocked below 0.2, rate-limited from 0.2 to below 0.4,
    active from 0.4 on, where the report path has 0.3 and 0.5.  The two
    derivations agree on a health score exactly when it lies below 0.2,
    between 0.3 and 0.4 or at 0.5 and above. *)
Theorem C8_sweep_and_report_thresholds (h : Q) :
  (health_check_status h = BLOCKED <-> (h < 0.2)%Q)
  /\ (health_check_status h = RATE_LIMITED <-> (0.2 <= h < 0.4)%Q)
  /\ (health_check_status h = ACTIVE <-> (0.4 <= h)%Q)
  /\ (report_status h = BLOCKED <-> (h < 0.3)%Q)
  /\ (report_status h = RATE_LIMITED <-> (0.3 <= h < 0.5)%Q)
  /\ (report_status h = ACTIVE <-> (0.5 <= h)%Q)
  /\ (health_check_status h = report_status h
      <-> (h < 0.2 \/ 0.3 <= h < 0.4 \/ 0.5 <= h)%Q).
Proof.
  pose proof (report_status_cases h) as (R1 & R2 & R3).
  pose proof (health_check_status_cases h) as (S1 & S2 & S3).
  repeat split; try tauto.
  - intros E.
    destruct (health_check_status h) eqn:Es; symmetry in E;
      try (exfalso; revert Es; unfold health_check_status;
           repeat destruct (Qltb _ _); discriminate).
    + apply R3 in E. right. right. exact E.
    + apply R1 in E. left. tauto.
    + apply R2 in E. assert ((0.2 <= h < 0.4)%Q) by tauto. right. left. lra.
  - intros [H|[H|H]].
    + rewrite (proj2 S1 H). symmetry. apply R1. lra.
    + rewrite (proj2 S2); [|lra]. symmetry. apply R2. lra.
    + rewrite (proj2 S3); [|lra]. symmetry. apply R3. exact H.
Qed.

(** C8, as stated, fails: on a health score of 0.25 the report path says
    blocked and the sweep says rate-limited. *)
Lemma C8_counterexample :
  ~ (forall h : Q, health_check_status h = report_status h).
Proof. intros H. specialize (H 0.25%Q). vm_compute in H. discriminate. Qed.

(** The same on a proxy object: a failure reported on a proxy of health
    0.30 leaves it blocked at 0.25, and the sweep that follows makes it
    rate-limited. *)
Example sweep_after_report :
  let p := set_health_score 0.30 proxy_a in
  let q := snd (report_proxy_result sample_rotator p false None 1) in
  status q = BLOCKED /\ status (health_check_proxy q) = RATE_LIMITED.
Proof. split; reflexivity. Qed.

(** ** Sticky sessions and unknown pools *)

Lemma update_proxy_stats_frame self proxy event now :
  pools (_update_proxy_stats self proxy event now) = pools self
  /\ active_sessions (_update_proxy_stats self proxy event now)
     = active_sessions self
  /\ proxy_stats (_update_proxy_stats self proxy event now) = proxy_stats self.
Proof. unfold _update_proxy_stats. destruct (redis self); auto. Qed.



(** With it goes the pin: within the TTL the session gets its pinned proxy
    before the release and the healthiest one after it. *)
Example get_proxy_after_release :
  fst (get_proxy sample_rotator "default" (Some "s1") None None 10 0 0)
  = Some proxy_b
  /\ fst (get_proxy (release_proxy sample_rotator proxy_b (Some "s1") 5)
            "default" (Some "s1") None None 10 0 0)
     = Some proxy_a.
Proof. split; reflexivity. Qed.

(** C10. For a pool name that is not in [self.pools], [get_proxy] returns
    [None] and leaves the rotator (sticky sessions, stats store, in-memory
    stats, pools) exactly as it was; the model of [get_proxy] has no raising
    path at all before or at that return. *)
Theorem C10_get_proxy_unknown_pool (self : ProxyRotator) (pool_name : string)
    (session_id country_arg : option string) (sticky_duration : option Z)
    (now : Q) (draw1 draw2 : nat) :
  pools self !! pool_name = None ->
  get_proxy self pool_name session_id country_arg sticky_duration now
    draw1 draw2
  = (None, self).
Proof. intros H. unfold get_proxy. now rewrite H. Qed.

Lemma C10_get_proxy_unknown_pool_witness :
  get_proxy sample_rotator "premium" (Some "s1") (Some "US") (Some 60) 10 0 0
  = (None, sample_rotator).
Proof.
  apply (C10_get_proxy_unknown_pool sample_rotator "premium"). reflexivity.
Defined.

(** ** The orchestrator *)

Section OrchestratorFacts.
Context {World : Type} `{Env : Environment World}.
Implicit Types (s : Orchestrator World) (m : ScrapeMethod).

Lemma check_returns m s :
  exists ok cb,
    _check_circuit_breaker m s = (Returned ok, set_circuit_breakers cb s).
Proof.
  unfold _check_circuit_breaker. destruct (circuit_breakers s !! value m) as [b|].
  - destruct (breaker_check b _) as [ok b']. eauto.
  - exists true, (circuit_breakers s). now destruct s.
Qed.

Lemma update_returns m ok s :
  exists cb,
    _update_circuit_breaker m ok s = (Returned tt, set_circuit_breakers cb s).
Proof.
  unfold _update_circuit_breaker.
  destruct (circuit_breakers s !! value m) as [b|]; [eauto|].
  exists (circuit_breakers s). now destruct s.
Qed.

(** On a stored breaker the two methods run [breaker_check] and
    [breaker_update] at the current time and store what comes out. *)
Lemma check_circuit_breaker_stored m s b :
  circuit_breakers s !! value m = Some b ->
  _check_circuit_breaker m s
  = (Returned (fst (breaker_check b (time_time (world s)))),
     set_circuit_breakers
       (<[value m := snd (breaker_check b (time_time (world s)))]>
          (circuit_breakers s)) s).
Proof.
  intros H. unfold _check_circuit_breaker. rewrite H.
  now destruct (breaker_check b _).
Qed.

Lemma update_circuit_breaker_stored m ok s b :
  circuit_breakers s !! value m = Some b ->
  _update_circuit_breaker m ok s
  = (Returned tt,
     set_circuit_breakers
       (<[value m := breaker_update b ok (time_time (world s))]>
          (circuit_breakers s)) s).
Proof. intros H. unfold _update_circuit_breaker. now rewrite H. Qed.

Lemma metrics_outcome m rt ok s :
  exists o pm,
    _update_performance_metrics m rt ok s = (o, set_performance_metrics pm s).
Proof.
  unfold _update_performance_metrics. destruct (_ =? 0); eauto.
Qed.

Lemma extract_unfold (r : ScrapeRequest) :
  extract r
  = bind (_is_method_available (req_method r)) (fun available =>
    let method :=
      if bool_decide (req_method r = SCRAPY) && negb available
      then _get_fallback_method r else req_method r in
    bind (_check_circuit_breaker method) (fun admitted =>
    bind (if admitted then ret (Some method)
          else if bool_decide (_get_fallback_method r ≠ method)
               then bind (_check_circuit_breaker (_get_fallback_method r))
                      (fun ok => ret (if ok then Some (_get_fallback_method r)
                                      else None))
               else ret None) (fun resolved =>
    match resolved with
    | None => ret (r, rejected_result r)
    | Some method => dispatch method r
    end))).
Proof. reflexivity. Qed.

Lemma bind_returned {A B} (c : M World A) (k : A -> M World B) s a s1 :
  c s = (Returned a, s1) -> bind c k s = k a s1.
Proof. intros H. unfold bind. now rewrite H. Qed.

Lemma bind_inv {A B} (c : M World A) (k : A -> M World B) s b s' :
  bind c k s = (Returned b, s') ->
  exists a s1, c s = (Returned a, s1) /\ k a s1 = (Returned b, s').
Proof.
  unfold bind. destruct (c s) as [[a|e] s1]; [eauto|discriminate].
Qed.

Lemma try_except_returns {A} (body : M World A) handler (P : A -> Prop) s :
  (forall a s', body s = (Returned a, s') -> P a) ->
  (forall e s1, exists a s', handler e s1 = (Returned a, s') /\ P a) ->
  exists a s', try_except body handler s = (Returned a, s') /\ P a.
Proof.
  intros Hb Hh. unfold try_except.
  destruct (body s) as [[a|e] s1] eqn:E; [eauto|apply Hh].
Qed.

(** Configuring the proxy of a registered service does not raise. *)
Lemma set_proxy_step m s :
  is_Some (services s !! value m) ->
  exists s1,
    match proxy_config s with
    | Some pc => service_set_proxy_config m pc
    | None => ret tt
    end s = (Returned tt, s1)
    /\ is_Some (services s1 !! value m)
    /\ circuit_breakers s1 = circuit_breakers s
    /\ world s1 = world s.
Proof.
  intros [svc Hsvc]. destruct (proxy_config s) as [pc|].
  - unfold service_set_proxy_config, bind, get_service, modify.
    rewrite Hsvc. eexists. split; [reflexivity|]. simpl.
    rewrite lookup_insert_eq. eauto.
  - unfold ret. eexists. split; [reflexivity|]. eauto.
Qed.

Lemma service_scrape_returned m (q : ScrapeRequest) s res s' :
  service_scrape m q s = (Returned res, s') ->
  exists svc, fst (scrape m svc q (world s)) = Returned res.
Proof.
  unfold service_scrape, bind, get_service.
  destruct (services s !! value m) as [svc|]; [|discriminate].
  destruct (scrape m svc q (world s)) as [o w] eqn:E.
  intros H. inversion H; subst. exists svc. now rewrite E.
Qed.

(** Once a backend is chosen and its service is registered the call
    returns, with the request carrying that backend and otherwise as it
    was. *)
Lemma dispatch_returns m (r : ScrapeRequest) s :
  is_Some (services s !! value m) ->
  exists a s', dispatch m r s = (Returned a, s') /\ dispatched m r a.
Proof.
  intros Hm. destruct (set_proxy_step m s Hm) as (s1 & E1 & _).
  unfold dispatch. unfold bind at 1. unfold gets at 1.
  rewrite (bind_returned _ _ _ _ _ E1).
  unfold bind at 1. unfold gets at 1.
  apply try_except_returns.
  - intros [r' res] s' E.
    apply bind_inv in E. destruct E as (result & s2 & Es & E).
    repeat (apply bind_inv in E; destruct E as (? & ? & _ & E)).
    unfold ret in E. inversion E; subst. split; [reflexivity|]. left.
    destruct (service_scrape_returned _ _ _ _ _ Es) as (svc & Hsvc). eauto.
  - intros e s2.
    destruct (update_returns m false s2) as (cb & E).
    eexists _, _. rewrite (bind_returned _ _ _ _ _ E).
    unfold bind, gets, ret. split; [reflexivity|].
    split; [reflexivity|]. right. exists e. reflexivity.
Qed.

Lemma fallback_differs (r : ScrapeRequest) :
  _get_fallback_method r <> req_method r.
Proof. unfold _get_fallback_method. destruct (req_method r); discriminate. Qed.


(** [extract] on an orchestrator holding its three services: it returns,
    either rejecting the request untouched or dispatching it to the
    requested backend or to its fallback. *)
Lemma extract_returns (r : ScrapeRequest) s :
  services_complete s ->
  exists a s',
    extract r s = (Returned a, s')
    /\ (a = (r, rejected_result r) /\ invocations s' = invocations s
        \/ dispatched (req_method r) r a
        \/ dispatched (_get_fallback_method r) r a).
Proof.
  intros Hc. rewrite extract_unfold.
  unfold bind at 1. unfold _is_method_available at 1, gets at 1.
  rewrite (bool_decide_eq_true_2 _ (Hc (req_method r))).
  rewrite andb_false_r. cbv zeta.
  destruct (check_returns (req_method r) s) as (ok & cb & E).
  rewrite (bind_returned _ _ _ _ _ E).
  destruct ok.
  - unfold bind at 1, ret at 1.
    destruct (dispatch_returns (req_method r) r (set_circuit_breakers cb s))
      as (a & s' & Ed & Ha); [apply Hc|]. eauto 6.
  - rewrite (bool_decide_eq_true_2 _ (fallback_differs r)).
    destruct (check_returns (_get_fallback_method r) (set_circuit_breakers cb s))
      as (ok & cb' & E2).
    unfold bind at 1. rewrite (bind_returned _ _ _ _ _ E2).
    destruct ok.
    + unfold ret at 1.
      destruct (dispatch_returns (_get_fallback_method r) r
                  (set_circuit_breakers cb' (set_circuit_breakers cb s)))
        as (a & s' & Ed & Ha); [apply Hc|]. eauto 6.
    + unfold ret. eexists _, _. split; [reflexivity|]. left. auto.
Qed.



(** C6 (as the code has it).  [extract] writes one field of the caller's
    request, its method: when the call returns, the request is the one
    passed in with the method set to the backend the call went to, which is
    the requested backend or its fallback; every other field has the value
    it had. *)
Theorem C6_extract_changes_only_the_method (s : Orchestrator World)
    (r : ScrapeRequest) :
  services_complete s ->
  exists r' res s',
    extract r s = (Returned (r', res), s')
    /\ r' = set_req_method (req_method r') r
    /\ (req_method r' = req_method r
        \/ req_method r' = _get_fallback_method r)
    /\ req_id r' = req_id r /\ req_url r' = req_url r
    /\ req_priority r' = req_priority r
    /\ req_auth_type r' = req_auth_type r
    /\ req_headers r' = req_headers r /\ req_cookies r' = req_cookies r
    /\ req_selectors r' = req_selectors r
    /\ req_wait_conditions r' = req_wait_conditions r
    /\ req_timeout r' = req_timeout r /\ req_use_proxy r' = req_use_proxy r
    /\ req_max_retries r' = req_max_retries r.
Proof.
  intros Hc.
  destruct (extract_returns r s Hc) as ([r' res] & s' & E & H).
  exists r', res, s'. split; [exact E|].
  assert (Hr : r' = r \/ r' = set_req_method (req_method r) r
               \/ r' = set_req_method (_get_fallback_method r) r).
  { destruct H as [[H _]|[[H _]|[H _]]]; [inversion H|..]; auto. }
  destruct Hr as [Hr|[Hr|Hr]]; subst r'; simpl; repeat split; auto;
    now destruct r.
Qed.

(** *** Batches *)



Lemma requests_for_app m (l1 l2 : list ScrapeRequest) :
  requests_for m (l1 ++ l2) = requests_for m l1 ++ requests_for m l2.
Proof. apply filter_app. Qed.

Lemma requests_for_other m m' (rs : list ScrapeRequest) :
  Forall (fun r => req_method r = m') rs -> m' <> m -> requests_for m rs = [].
Proof.
  intros H Hne. unfold requests_for.
  induction H as [|r rs Hr _ IH]; [reflexivity|].
  rewrite filter_cons_False by congruence. exact IH.
Qed.

Lemma requests_for_absent m groups :
  Forall (fun g => Forall (fun r => req_method r = fst g) (snd g)) groups ->
  m ∉ map fst groups ->
  requests_for m (concat (map snd groups)) = [].
Proof.
  induction 1 as [|[m' rs] groups Hg _ IH]; simpl; [reflexivity|].
  intros Hn. rewrite not_elem_of_cons in Hn. destruct Hn as [Hne Hn].
  rewrite requests_for_app, (requests_for_other m m' rs Hg), IH by auto.
  reflexivity.
Qed.

Lemma add_to_group_keys m (r : ScrapeRequest) groups :
  map fst (add_to_group m r groups)
  = if bool_decide (m ∈ map fst groups) then map fst groups
    else map fst groups ++ [m].
Proof.
  induction groups as [|[m' rs] groups IH]; simpl; [reflexivity|].
  destruct (bool_decide_reflect (m' = m)) as [->|Hne]; simpl.
  - rewrite bool_decide_eq_true_2 by left. reflexivity.
  - rewrite IH. destruct (bool_decide_reflect (m ∈ map fst groups)) as [Hin|Hout].
    + rewrite bool_decide_eq_true_2 by now right. reflexivity.
    + rewrite bool_decide_eq_false_2; [reflexivity|].
      rewrite not_elem_of_cons. split; congruence.
Qed.

Lemma add_to_group_well_grouped (r : ScrapeRequest) groups :
  well_grouped groups ->
  well_grouped (add_to_group (req_method r) r groups)
  /\ forall m,
      requests_for m (concat (map snd (add_to_group (req_method r) r groups)))
      = requests_for m (concat (map snd groups)) ++ requests_for m [r].
Proof.
  intros [Hnd Hall]. split; [split|].
  - rewrite add_to_group_keys.
    destruct (bool_decide_reflect (req_method r ∈ map fst groups));
      [exact Hnd|].
    apply NoDup_app. repeat split; [exact Hnd| |apply NoDup_singleton].
    intros x Hx Hx'. apply list_elem_of_singleton in Hx'. now subst.
  - clear Hnd. induction Hall as [|[m' rs] groups Hg Hall IH]; simpl.
    + repeat constructor.
    + destruct (bool_decide_reflect (m' = req_method r)) as [E|Hne].
      * constructor; [|exact Hall]. simpl in *.
        apply Forall_app. split; [exact Hg|]. repeat constructor. congruence.
      * constructor; [exact Hg|exact IH].
  - intros m. revert Hnd.
    induction Hall as [|[m' rs] groups Hg Hall IH]; simpl; intros Hnd;
      [reflexivity|].
    apply NoDup_cons in Hnd. destruct Hnd as [Hnotin Hnd].
    destruct (bool_decide_reflect (m' = req_method r)) as [E|Hne]; simpl.
    + rewrite !requests_for_app. rewrite <- !app_assoc. f_equal.
      destruct (decide (m = m')) as [->|Hm].
      * rewrite (requests_for_absent m' groups Hall Hnotin).
        now rewrite app_nil_r.
      * assert (Hr : requests_for m [r] = []).
        { apply (requests_for_other m m'); [|congruence].
          repeat constructor. congruence. }
        rewrite Hr. now rewrite app_nil_r.
    + rewrite !requests_for_app, IH by exact Hnd. now rewrite app_assoc.
Qed.




Lemma group_by_method_invariant (rs : list ScrapeRequest) :
  well_grouped (group_by_method rs)
  /\ map fst (group_by_method rs) = backends_in_order rs.
Proof.
  unfold group_by_method, backends_in_order.
  assert (H : forall groups,
             well_grouped groups ->
             well_grouped
               (foldl (fun groups request =>
                         add_to_group (req_method request) request groups)
                      groups rs)
             /\ map fst
                  (foldl (fun groups request =>
                            add_to_group (req_method request) request groups)
                         groups rs)
                = foldl (fun seen r =>
                           if bool_decide (req_method r ∈ seen) then seen
                           else seen ++ [req_method r]) (map fst groups) rs).
  { induction rs as [|r rs IH]; intros groups Hw; simpl; [auto|].
    destruct (add_to_group_well_grouped r groups Hw) as [Hw' _].
    destruct (IH _ Hw') as [IH1 IH2]. split; [exact IH1|].
    rewrite IH2, add_to_group_keys. reflexivity. }
  apply (H []). split; constructor.
Qed.





Lemma for_each_update_returns m (results : list ScrapeResult) s :
  exists cb,
    for_each (fun result =>
                _update_circuit_breaker m
                  (bool_decide (res_status result = SUCCESS))) results s
    = (Returned tt, set_circuit_breakers cb s).
Proof.
  revert s. induction results as [|res results IH]; intros s; simpl.
  - exists (circuit_breakers s). now destruct s.
  - destruct (update_returns m (bool_decide (res_status res = SUCCESS)) s)
      as (cb & E).
    rewrite (bind_returned _ _ _ _ _ E).
    destruct (IH (set_circuit_breakers cb s)) as (cb' & E'). rewrite E'.
    now exists cb'.
Qed.





End OrchestratorFacts.

(** ** The sample world *)

Lemma sample_services_complete a b c :
  services_complete (sample_orchestrator a b c).
Proof. intros m. destruct m; vm_compute; eauto. Qed.





(** An open breaker whose recovery timeout has elapsed lets the request
    through as a probe: with all three breakers open since time 0 the
    extractor is called and its result returned. *)
Example extract_probes_after_timeout :
  let out :=
    @extract Q sample_env (sample_request "r1" SCRAPY)
      (sample_orchestrator stale_open_breaker stale_open_breaker
         stale_open_breaker) in
  fst out = Returned (sample_request "r1" SCRAPY,
                      success_result (sample_request "r1" SCRAPY))
  /\ invocations (snd out) = [CallScrape SCRAPY (sample_request "r1" SCRAPY)].
Proof. split; vm_compute; reflexivity. Qed.

Lemma C6_extract_changes_only_the_method_witness :
  exists r' res s',
    @extract Q sample_env (sample_request "r1" SCRAPY)
      (sample_orchestrator open_breaker initial_breaker initial_breaker)
    = (Returned (r', res), s')
    /\ r' = set_req_method (req_method r') (sample_request "r1" SCRAPY)
    /\ (req_method r' = SCRAPY \/ req_method r' = PYDOLL)
    /\ req_id r' = Some "r1" /\ req_url r' = "https://example.com"
    /\ req_priority r' = NORMAL
    /\ req_auth_type r' = AUTH_NONE
    /\ req_headers r' = ∅ /\ req_cookies r' = ∅
    /\ req_selectors r' = ∅
    /\ req_wait_conditions r' = []
    /\ req_timeout r' = 30 /\ req_use_proxy r' = true
    /\ req_max_retries r' = 3.
Proof.
  refine (C6_extract_changes_only_the_method
            (sample_orchestrator open_breaker initial_breaker initial_breaker)
            (sample_request "r1" SCRAPY) _).
  intros m. destruct m; vm_compute; eauto.
Defined.

(** C6, as stated, fails: a request for scrapy whose breaker is open goes
    to pydoll, and comes back with ["pydoll"] as its method. *)
Lemma C6_counterexample :
  ~ (forall (s : Orchestrator Q) (r r' : ScrapeRequest) res s',
       @extract Q sample_env r s = (Returned (r', res), s') -> r' = r).
Proof.
  intros H.
  pose (s := sample_orchestrator open_breaker initial_breaker initial_breaker).
  pose (r := sample_request "r1" SCRAPY).
  assert (E : @extract Q sample_env r s
              = (Returned (set_req_method PYDOLL r,
                           success_result (set_req_method PYDOLL r)),
                 snd (@extract Q sample_env r s)))
    by (vm_compute; reflexivity).
  apply H in E. apply (f_equal req_method) in E. discriminate E.
Qed.



(** * Further properties *)

(** ** Circuit breaker *)

Lemma breaker_wf_of_reachable (b : Breaker) : reachable b -> breaker_wf b.
Proof.
  induction 1 as [|b t _ IH|b ok t _ IH].
  - constructor; simpl; auto; try lia; try (intros [?|?]; discriminate);
      discriminate.
  - destruct IH as [Hst Hth Hto Hmax Hc Hcl Htr Hpr].
    unfold breaker_check.
    destruct Hst as [Hs|[Hs|Hs]]; rewrite Hs; simpl.
    + constructor; auto.
    + destruct (Qltb _ _); simpl; [|constructor; auto].
      constructor; simpl; auto; try discriminate.
      intros _. exists 0. split; [reflexivity|lia].
    + destruct (Hpr Hs) as (calls & Ecalls & Hcalls). rewrite Ecalls. simpl.
      rewrite Hmax.
      destruct (Z.ltb_spec calls 3); simpl; [|constructor; auto].
      constructor; simpl; auto.
      intros _. exists (calls + 1). split; [reflexivity|lia].
  - destruct IH as [Hst Hth Hto Hmax Hc Hcl Htr Hpr].
    unfold breaker_update. destruct ok.
    + destruct Hst as [Hs|[Hs|Hs]]; rewrite Hs; simpl.
      * constructor; simpl; auto; try lia. intros [?|?]; congruence.
      * constructor; auto.
      * constructor; simpl; auto; try lia; try discriminate.
        intros [?|?]; discriminate.
    + simpl. rewrite Hth.
      destruct (Z.leb_spec 5 (failure_count b + 1)); simpl.
      * constructor; simpl; auto; try lia; discriminate.
      * constructor; simpl; auto; try lia.
        intros Hs. specialize (Htr Hs). lia.
Qed.

(** Every breaker the orchestrator can hold is in one of the three states
    and keeps the parameters [initialize] gave it; it is closed with fewer
    than 5 failures counted, or open or half-open with at least 5, and a
    half-open breaker has let through at most 3 probes. *)
Theorem reachable_breaker_wf (b : Breaker) : reachable b -> breaker_wf b.
Proof. exact (breaker_wf_of_reachable b). Qed.

Lemma reachable_breaker_wf_witness :
  breaker_wf (breaker_update (breaker_update initial_breaker false 1) true 2).
Proof.
  apply reachable_breaker_wf. apply reach_update, reach_update, reach_init.
Defined.



(** ** The orchestrator, further *)

Section OrchestratorMoreFacts.
Context {World : Type} `{Env : Environment World}.
Implicit Types (s : Orchestrator World) (m : ScrapeMethod).

Lemma set_circuit_breakers_id s : set_circuit_breakers (circuit_breakers s) s = s.
Proof. now destruct s. Qed.

Lemma set_req_method_id (r : ScrapeRequest) : set_req_method (req_method r) r = r.
Proof. now destruct r. Qed.

Lemma check_closed m s b :
  circuit_breakers s !! value m = Some b -> state b = "closed" ->
  _check_circuit_breaker m s = (Returned true, s).
Proof.
  intros Hb Hs. unfold _check_circuit_breaker, breaker_check.
  rewrite Hb, Hs. simpl. rewrite insert_id by exact Hb.
  now rewrite set_circuit_breakers_id.
Qed.

Lemma check_rejects m s :
  breaker_rejects s m -> _check_circuit_breaker m s = (Returned false, s).
Proof.
  intros (b & Hb & Hs & Ht).
  unfold _check_circuit_breaker, breaker_check. rewrite Hb, Hs, Ht. simpl.
  rewrite insert_id by exact Hb. now rewrite set_circuit_breakers_id.
Qed.

Lemma record_outcomes_missing m outcomes s :
  circuit_breakers s !! value m = None ->
  record_outcomes m outcomes s = (Returned tt, s).
Proof.
  intros H. unfold record_outcomes.
  induction outcomes as [|ok outcomes IH]; simpl; [reflexivity|].
  unfold bind, _update_circuit_breaker at 1. rewrite H. exact IH.
Qed.

(** An orchestrator that holds no breaker for a backend, as before
    [initialize] has run, admits every call to it and records none of its
    outcomes: no run of failures makes it reject. *)
Theorem missing_breaker_never_trips m s (outcomes : list bool) :
  circuit_breakers s !! value m = None ->
  exists s',
    record_outcomes m outcomes s = (Returned tt, s')
    /\ circuit_breakers s' = circuit_breakers s
    /\ _check_circuit_breaker m s' = (Returned true, s').
Proof.
  intros H. exists s. rewrite (record_outcomes_missing m outcomes s H).
  repeat split. unfold _check_circuit_breaker. now rewrite H.
Qed.

(** [extract] consults two breakers only, the one of the requested backend
    and the one of its fallback: when both reject, the request is rejected
    with ["CircuitBreakerError"], nothing is called and nothing changes,
    whatever the state of the third backend. *)
Theorem extract_consults_two_breakers (r : ScrapeRequest) s :
  breaker_rejects s (req_method r) ->
  breaker_rejects s (_get_fallback_method r) ->
  extract r s = (Returned (r, rejected_result r), s).
Proof.
  intros H1 H2. rewrite extract_unfold.
  unfold bind at 1. unfold _is_method_available at 1, gets at 1. cbv zeta.
  destruct (bool_decide (req_method r = SCRAPY)
            && negb (bool_decide (is_Some (services s !! value (req_method r))))).
  - rewrite (bind_returned _ _ _ _ _ (check_rejects _ s H2)).
    rewrite bool_decide_eq_false_2 by auto. reflexivity.
  - rewrite (bind_returned _ _ _ _ _ (check_rejects _ s H1)).
    rewrite (bool_decide_eq_true_2 _ (fallback_differs r)).
    unfold bind at 1.
    rewrite (bind_returned _ _ _ _ _ (check_rejects _ s H2)). reflexivity.
Qed.

Lemma dispatch_trace m (r : ScrapeRequest) s :
  is_Some (services s !! value m) ->
  exists a s',
    dispatch m r s = (Returned a, s')
    /\ invocations s'
       = invocations (after_set_proxy m s) ++ [CallScrape m (set_req_method m r)].
Proof.
  intros [svc Hsvc].
  unfold dispatch, after_set_proxy, bind, gets, try_except, service_scrape,
    service_set_proxy_config, get_service, modify, ret, bind.
  destruct (proxy_config s) as [pc|]; simpl.
  - rewrite Hsvc. simpl. rewrite lookup_insert_eq.
    destruct (scrape _ _ _ _) as [[res|e] w]; simpl.
    + unfold _update_performance_metrics. simpl.
      destruct (_ =? 0); simpl;
        unfold _update_circuit_breaker; simpl;
        destruct (circuit_breakers s !! value m); simpl; eauto.
    + unfold _update_circuit_breaker; simpl;
        destruct (circuit_breakers s !! value m); simpl; eauto.
  - rewrite Hsvc. simpl.
    destruct (scrape _ _ _ _) as [[res|e] w]; simpl.
    + unfold _update_performance_metrics. simpl.
      destruct (_ =? 0); simpl;
        unfold _update_circuit_breaker; simpl;
        destruct (circuit_breakers s !! value m); simpl; eauto.
    + unfold _update_circuit_breaker; simpl;
        destruct (circuit_breakers s !! value m); simpl; eauto.
Qed.

(** Whenever [extract] returns it has called [scrape] at most once: not
    at all, or once on the requested backend or on its fallback, with the
    request carrying that backend, after handing the service the proxy
    configuration if there is one. *)
Theorem extract_calls_one_backend (r : ScrapeRequest) s :
  services_complete s ->
  exists a s',
    extract r s = (Returned a, s')
    /\ (invocations s' = invocations s
        \/ exists m,
            (m = req_method r \/ m = _get_fallback_method r)
            /\ fst a = set_req_method m r
            /\ invocations s'
               = invocations s
                 ++ match proxy_config s with
                    | Some _ => [CallSetProxyConfig m]
                    | None => []
                    end
                 ++ [CallScrape m (set_req_method m r)]).
Proof.
  intros Hc.
  assert (Hd : forall m cb,
             exists a s',
               dispatch m r (set_circuit_breakers cb s) = (Returned a, s')
               /\ fst a = set_req_method m r
               /\ invocations s'
                  = invocations s
                    ++ match proxy_config s with
                       | Some _ => [CallSetProxyConfig m]
                       | None => []
                       end
                    ++ [CallScrape m (set_req_method m r)]).
  { intros m cb.
    destruct (dispatch_trace m r (set_circuit_breakers cb s) (Hc m))
      as (a & s' & E & Ht).
    destruct (dispatch_returns m r (set_circuit_breakers cb s) (Hc m))
      as (a' & s'' & E' & Ha & _).
    rewrite E in E'. inversion E'; subst a' s''.
    exists a, s'. split; [exact E|]. split; [exact Ha|].
    rewrite Ht. unfold after_set_proxy. simpl.
    destruct (proxy_config s); simpl; [|reflexivity].
    now rewrite <- app_assoc. }
  rewrite extract_unfold.
  unfold bind at 1. unfold _is_method_available at 1, gets at 1.
  rewrite (bool_decide_eq_true_2 _ (Hc (req_method r))).
  rewrite andb_false_r. cbv zeta.
  destruct (check_returns (req_method r) s) as (ok & cb & E).
  rewrite (bind_returned _ _ _ _ _ E).
  destruct ok.
  - unfold bind at 1, ret at 1.
    destruct (Hd (req_method r) cb) as (a & s' & Ed & Ha & Ht).
    exists a, s'. split; [exact Ed|]. right. exists (req_method r). auto.
  - rewrite (bool_decide_eq_true_2 _ (fallback_differs r)).
    destruct (check_returns (_get_fallback_method r) (set_circuit_breakers cb s))
      as (ok & cb' & E2).
    unfold bind at 1. rewrite (bind_returned _ _ _ _ _ E2).
    destruct ok.
    + unfold ret at 1.
      destruct (Hd (_get_fallback_method r) cb') as (a & s' & Ed & Ha & Ht).
      exists a, s'. split; [exact Ed|]. right.
      exists (_get_fallback_method r). auto.
    + unfold ret. eexists _, _. split; [reflexivity|]. left. reflexivity.
Qed.

(** When the requested backend is admitted (its breaker is closed) and its
    extractor raises, [extract] answers with a failed result carrying type
    name and message of the exception and the time the call took, records
    one failure on the breaker of the backend, and leaves the performance
    metrics as they were. *)
Theorem extract_on_exception (r : ScrapeRequest) s b svc e w :
  circuit_breakers s !! value (req_method r) = Some b ->
  state b = "closed" ->
  services s !! value (req_method r) = Some svc ->
  scrape (req_method r) (service_after_set_proxy s svc) r (world s)
  = (Raised e, w) ->
  exists s',
    extract r s
    = (Returned (r, failed_result (request_id_str r) (exc_message e)
                      (exc_type e)
                      (Some (time_time w - time_time (world s))%Q)), s')
    /\ circuit_breakers s'
       = <[value (req_method r) := breaker_update b false (time_time w)]>
           (circuit_breakers s)
    /\ performance_metrics s' = performance_metrics s
    /\ world s' = w.
Proof.
  intros Hb Hs Hsvc Hscrape. rewrite extract_unfold.
  unfold bind at 1. unfold _is_method_available at 1, gets at 1.
  rewrite (bool_decide_eq_true_2 (is_Some _)) by eauto.
  rewrite andb_false_r. cbv zeta.
  rewrite (bind_returned _ _ _ _ _ (check_closed _ _ _ Hb Hs)).
  unfold bind at 1, ret at 1.
  unfold dispatch. rewrite set_req_method_id.
  unfold service_after_set_proxy in Hscrape.
  unfold bind, gets, try_except, service_scrape, service_set_proxy_config,
    get_service, modify, ret, bind.
  revert Hscrape.
  destruct (proxy_config s) as [pc|]; intros Hscrape; simpl; rewrite Hsvc;
    simpl;
    rewrite ?lookup_insert_eq; simpl; rewrite Hscrape; simpl;
    unfold _update_circuit_breaker; simpl; rewrite Hb; simpl;
    eexists; repeat split.
Qed.

(** When the requested backend is admitted and its extractor returns a
    result, [extract] hands that result back as it is, counts the request
    in the performance metrics of the backend (as a success only if the
    status is [SUCCESS]) and records the outcome on its breaker: any other
    status counts as a failure there.  (The request counter of the entry is
    not -1, so that the divisions of the metrics update do not raise.) *)
Theorem extract_on_result (r : ScrapeRequest) s b svc res w :
  circuit_breakers s !! value (req_method r) = Some b ->
  state b = "closed" ->
  services s !! value (req_method r) = Some svc ->
  scrape (req_method r) (service_after_set_proxy s svc) r (world s)
  = (Returned res, w) ->
  let before :=
    default initial_metrics (performance_metrics s !! value (req_method r)) in
  m_requests before + 1 <> 0 ->
  exists s' after,
    extract r s = (Returned (r, res), s')
    /\ circuit_breakers s'
       = <[value (req_method r) :=
             breaker_update b (bool_decide (res_status res = SUCCESS))
               (time_time w)]> (circuit_breakers s)
    /\ performance_metrics s'
       = <[value (req_method r) := after]> (performance_metrics s)
    /\ m_requests after = m_requests before + 1
    /\ m_successful_requests after
       = m_successful_requests before
         + (if bool_decide (res_status res = SUCCESS) then 1 else 0)
    /\ m_total_response_time after
       = (m_total_response_time before
          + (time_time w - time_time (world s)))%Q.
Proof.
  intros Hb Hs Hsvc Hscrape before Hreq. rewrite extract_unfold.
  unfold bind at 1. unfold _is_method_available at 1, gets at 1.
  rewrite (bool_decide_eq_true_2 (is_Some _)) by eauto.
  rewrite andb_false_r. cbv zeta.
  rewrite (bind_returned _ _ _ _ _ (check_closed _ _ _ Hb Hs)).
  unfold bind at 1, ret at 1.
  unfold dispatch. rewrite set_req_method_id.
  unfold service_after_set_proxy in Hscrape.
  apply Z.eqb_neq in Hreq. subst before.
  unfold bind, gets, try_except, service_scrape, service_set_proxy_config,
    get_service, modify, ret, bind.
  revert Hscrape.
  destruct (proxy_config s) as [pc|]; intros Hscrape; simpl; rewrite Hsvc;
    simpl;
    rewrite ?lookup_insert_eq; simpl; rewrite Hscrape; simpl;
    unfold _update_performance_metrics; simpl; rewrite Hreq; simpl;
    unfold _update_circuit_breaker; simpl; rewrite Hb; simpl;
    destruct (bool_decide (res_status res = SUCCESS));
    eexists _, _; (split; [reflexivity|]); simpl;
    repeat split; try reflexivity; simpl; lia.
Qed.

(** *** Performance metrics *)

Lemma metrics_update_step m rt ok s :
  let before := default initial_metrics (performance_metrics s !! value m) in
  0 <= m_requests before ->
  exists after,
    _update_performance_metrics m rt ok s
    = (Returned tt,
       set_performance_metrics (<[value m := after]> (performance_metrics s)) s)
    /\ m_requests after = m_requests before + 1
    /\ m_successful_requests after
       = m_successful_requests before + (if ok then 1 else 0)
    /\ m_total_response_time after = (m_total_response_time before + rt)%Q
    /\ m_success_rate after
       = (inject_Z (m_successful_requests after)
          / inject_Z (m_requests after))%Q
    /\ m_avg_response_time after
       = (m_total_response_time after / inject_Z (m_requests after))%Q.
Proof.
  intros before Hreq. unfold _update_performance_metrics. fold before.
  destruct (Z.eqb_spec (m_requests before + 1) 0); [lia|].
  eexists. split; [reflexivity|]. simpl.
  destruct ok; repeat split; try reflexivity; lia.
Qed.

Lemma record_metrics_run m (calls : list (Q * bool)) : forall call s,
  let before := default initial_metrics (performance_metrics s !! value m) in
  0 <= m_requests before ->
  exists s' after,
    record_metrics m (call :: calls) s = (Returned tt, s')
    /\ performance_metrics s' !! value m = Some after
    /\ m_requests after
       = m_requests before + Z.of_nat (length (call :: calls))
    /\ m_successful_requests after
       = m_successful_requests before
         + Z.of_nat (length (List.filter snd (call :: calls)))
    /\ m_total_response_time after
       = foldl Qplus (m_total_response_time before) (map fst (call :: calls))
    /\ m_success_rate after
       = (inject_Z (m_successful_requests after)
          / inject_Z (m_requests after))%Q
    /\ m_avg_response_time after
       = (m_total_response_time after / inject_Z (m_requests after))%Q.
Proof.
  induction calls as [|call' calls IH]; intros [rt ok] s before Hreq;
    subst before.
  - destruct (metrics_update_step m rt ok s Hreq)
      as (after & E & H1 & H2 & H3 & H4 & H5).
    exists (set_performance_metrics
              (<[value m := after]> (performance_metrics s)) s), after.
    unfold record_metrics. simpl.
    rewrite (bind_returned _ _ _ _ _ E). split; [reflexivity|].
    simpl. rewrite lookup_insert_eq.
    repeat split; auto.
    all: try (rewrite H1; simpl length; lia).
    all: rewrite H2; destruct ok; simpl; lia.
  - destruct (metrics_update_step m rt ok s Hreq)
      as (after & E & H1 & H2 & H3 & H4 & H5).
    destruct (IH call'
                (set_performance_metrics
                   (<[value m := after]> (performance_metrics s)) s))
      as (s' & final & E' & F0 & F1 & F2 & F3 & F4 & F5).
    { simpl. rewrite lookup_insert_eq. simpl. lia. }
    simpl in F1, F2, F3. rewrite lookup_insert_eq in F1, F2, F3.
    simpl in F1, F2, F3.
    exists s', final. unfold record_metrics in *.
    change (for_each ?f ((rt, ok) :: call' :: calls))
      with (bind (f (rt, ok)) (fun _ => for_each f (call' :: calls))).
    rewrite (bind_returned _ _ _ _ _ E). split; [exact E'|].
    split; [exact F0|].
    repeat split; auto.
    + rewrite F1, H1. simpl length. lia.
    + rewrite F2, H2. simpl. destruct ok, (snd call'); simpl length; lia.
    + rewrite F3, H3. reflexivity.
Qed.

Lemma Qdiv_unit_interval (k n : Z) :
  0 <= k <= n -> 0 < n -> (0 <= inject_Z k / inject_Z n <= 1)%Q.
Proof.
  intros Hk Hn.
  assert (Hpos : (0 < inject_Z n)%Q) by (unfold Qlt; simpl; lia).
  split.
  - apply Qle_shift_div_l; [exact Hpos|]. unfold Qle. simpl. lia.
  - apply Qle_shift_div_r; [exact Hpos|]. unfold Qle. simpl. lia.
Qed.

(** Starting without an entry for the backend, a run of
    [_update_performance_metrics] calls never raises and leaves an entry
    that counts the calls and the successes among them, sums the response
    times, and holds their quotients as success rate, which lies within
    [0, 1], and as average response time. *)
Theorem performance_metrics_tracking m s (call : Q * bool)
    (calls : list (Q * bool)) :
  performance_metrics s !! value m = None ->
  exists s' after,
    record_metrics m (call :: calls) s = (Returned tt, s')
    /\ performance_metrics s' !! value m = Some after
    /\ m_requests after = Z.of_nat (length (call :: calls))
    /\ m_successful_requests after
       = Z.of_nat (length (List.filter snd (call :: calls)))
    /\ m_total_response_time after = foldl Qplus 0%Q (map fst (call :: calls))
    /\ m_success_rate after
       = (inject_Z (m_successful_requests after)
          / inject_Z (m_requests after))%Q
    /\ m_avg_response_time after
       = (m_total_response_time after / inject_Z (m_requests after))%Q
    /\ (0 <= m_success_rate after <= 1)%Q.
Proof.
  intros Hnone.
  destruct (record_metrics_run m calls call s)
    as (s' & after & E & F0 & F1 & F2 & F3 & F4 & F5).
  { rewrite Hnone. simpl. lia. }
  rewrite Hnone in F1, F2, F3. simpl default in F1, F2, F3.
  simpl m_requests in F1. simpl m_successful_requests in F2.
  simpl m_total_response_time in F3.
  exists s', after. repeat split; auto.
  - rewrite F4. apply Qdiv_unit_interval.
    + rewrite F1, F2. split; [lia|].
      apply inj_le. apply List.filter_length_le.
    + rewrite F1. simpl length. lia.
  - rewrite F4. apply Qdiv_unit_interval.
    + rewrite F1, F2. split; [lia|].
      apply inj_le. apply List.filter_length_le.
    + rewrite F1. simpl length. lia.
Qed.

End OrchestratorMoreFacts.

(** ** Method suggestion *)

Lemma has_javascript_spec (r : ScrapeRequest) :
  has_javascript r = true
  <-> exists condition,
        In condition (req_wait_conditions r)
        /\ (contains "networkidle" condition = true
            \/ contains "javascript" condition = true).
Proof.
  unfold has_javascript. rewrite existsb_exists. split.
  - intros (c & Hin & _). apply List.filter_In in Hin.
    destruct Hin as [Hin Hc]. apply orb_true_iff in Hc. eauto.
  - intros (c & Hin & Hc). exists c. split.
    + apply List.filter_In. split; [exact Hin|]. now apply orb_true_iff.
    + destruct c; [|reflexivity]. destruct Hc; discriminate.
Qed.

(** Under the three strategies that look at the request only,
    [suggest_method] never raises, does not depend on the metrics, and
    never suggests scrapy for a request that waits for JavaScript or needs
    authentication: speed-first and quality-first send such a request to
    playwright, cost-optimized to playwright when it has more than two wait
    conditions and to pydoll otherwise.  A request with neither goes to
    scrapy under cost-optimized, and under speed-first when it has at most
    two wait conditions and no high or urgent priority. *)
Theorem suggest_method_static (items : list (string * Metrics))
    (r : ScrapeRequest) (strategy : ExtractionStrategy) :
  strategy <> RELIABILITY_FIRST ->
  exists m,
    suggest_method items r strategy = Returned m
    /\ (has_javascript r = true \/ needs_authentication r = true ->
        m <> SCRAPY
        /\ (strategy = SPEED_FIRST \/ strategy = QUALITY_FIRST -> m = PLAYWRIGHT)
        /\ (strategy = COST_OPTIMIZED ->
            m = if needs_complex_interaction r then PLAYWRIGHT else PYDOLL))
    /\ (has_javascript r = false -> needs_authentication r = false ->
        (strategy = COST_OPTIMIZED -> m = SCRAPY)
        /\ (strategy = SPEED_FIRST ->
            m = if needs_complex_interaction r then PLAYWRIGHT
                else if is_high_priority r then PYDOLL else SCRAPY))
    /\ suggest_method items r strategy = suggest_method [] r strategy.
Proof.
  intros Hs. unfold suggest_method.
  destruct strategy; try congruence;
    destruct (has_javascript r), (needs_authentication r),
      (needs_complex_interaction r); simpl;
    try destruct (is_high_priority r);
    try destruct (bool_decide (req_selectors r ≠ ∅));
    eexists; (split; [reflexivity|]);
    intuition (try discriminate; try congruence).
Qed.

Lemma suggest_method_static_witness :
  exists m,
    suggest_method []
      (mkScrapeRequest None 0 0 ∅ "https://example.com" SCRAPY NORMAL
         AUTH_NONE None ∅ ∅ ∅ ["networkidle"] 30 true None true true 3 5
         false false true None ∅) SPEED_FIRST = Returned m
    /\ m = PLAYWRIGHT.
Proof.
  destruct (suggest_method_static []
              (mkScrapeRequest None 0 0 ∅ "https://example.com" SCRAPY NORMAL
                 AUTH_NONE None ∅ ∅ ∅ ["networkidle"] 30 true None true true
                 3 5 false false true None ∅) SPEED_FIRST)
    as (m & E & H & _); [discriminate|].
  exists m. split; [exact E|].
  apply H; [left; reflexivity | left; reflexivity].
Defined.

Lemma method_of_name_value (name : string) (m : ScrapeMethod) :
  method_of_name name = Returned m <-> name = value m.
Proof.
  unfold method_of_name.
  destruct (String.eqb_spec name "scrapy") as [->|H1];
    [split; [intros H; now inversion H | destruct m; (reflexivity || discriminate)]|].
  destruct (String.eqb_spec name "pydoll") as [->|H2];
    [split; [intros H; now inversion H | destruct m; (reflexivity || discriminate)]|].
  destruct (String.eqb_spec name "playwright") as [->|H3];
    [split; [intros H; now inversion H | destruct m; (reflexivity || discriminate)]|].
  split; [discriminate|]. intros ->. destruct m; simpl in *; congruence.
Qed.

(** The loop of [_get_best_performing_method], from any point on: it ends
    with the method it held, every entry with 10 requests or more scoring
    no better than the score it held; or with the method of such an entry
    whose score beats the score held and is not beaten by any other. *)
Lemma best_performing_spec (items : list (string * Metrics)) :
  forall best_score best_method result,
    best_performing items best_score best_method = Returned result ->
    (result = best_method
     /\ forall name metrics,
          In (name, metrics) items -> 10 <= m_requests metrics ->
          (performance_score metrics <= best_score)%Q)
    \/ exists name metrics m,
         In (name, metrics) items /\ result = Some m /\ name = value m
         /\ 10 <= m_requests metrics
         /\ (best_score < performance_score metrics)%Q
         /\ forall name' metrics',
              In (name', metrics') items -> 10 <= m_requests metrics' ->
              (performance_score metrics' <= performance_score metrics)%Q.
Proof.
  induction items as [|[name metrics] items IH]; intros sc bm result; simpl.
  - intros H. inversion H. left. split; [reflexivity|]. intros ? ? [].
  - destruct (Z.ltb_spec (m_requests metrics) 10) as [Hlt|Hge].
    { intros H. destruct (IH _ _ _ H) as [[E Hall]|(n & mt & m & Hin & Hrest)].
      - left. split; [exact E|]. intros n' mt' [Heq|Hin] Hq; [|eauto].
        inversion Heq; subst. lia.
      - right. exists n, mt, m. split; [now right|].
        destruct Hrest as (E & En & Hq & Hsc & Hall).
        repeat split; auto. intros n' mt' [Heq|Hin'] Hq'; [|eauto].
        inversion Heq; subst. lia. }
    destruct (Qeq_bool _ 0); [discriminate|].
    destruct (Qltb sc (performance_score metrics)) eqn:Eb;
      [apply Qltb_lt in Eb | apply Qltb_ge in Eb].
    + destruct (method_of_name name) as [m0|e] eqn:Em; [|discriminate].
      apply method_of_name_value in Em.
      intros H. destruct (IH _ _ _ H) as [[E Hall]|(n & mt & m & Hin & Hrest)].
      * right. exists name, metrics, m0. split; [now left|].
        repeat split; auto.
        intros n' mt' [Heq|Hin] Hq; [inversion Heq; subst; lra | eauto].
      * right. exists n, mt, m. split; [now right|].
        destruct Hrest as (E & En & Hq & Hsc & Hall).
        repeat split; auto; [lra|].
        intros n' mt' [Heq|Hin'] Hq'; [inversion Heq; subst; lra | eauto].
    + intros H. destruct (IH _ _ _ H) as [[E Hall]|(n & mt & m & Hin & Hrest)].
      * left. split; [exact E|].
        intros n' mt' [Heq|Hin] Hq; [inversion Heq; subst; lra | eauto].
      * right. exists n, mt, m. split; [now right|].
        destruct Hrest as (E & En & Hq & Hsc & Hall).
        repeat split; auto.
        intros n' mt' [Heq|Hin'] Hq'; [inversion Heq; subst; lra | eauto].
Qed.

Lemma best_performing_returns (items : list (string * Metrics)) :
  (forall name metrics,
     In (name, metrics) items ->
     (exists m, name = value m) /\ (0 <= m_avg_response_time metrics)%Q) ->
  forall best_score best_method,
    exists result, best_performing items best_score best_method = Returned result.
Proof.
  induction items as [|[name metrics] items IH]; intros Hok sc bm; simpl;
    [eauto|].
  assert (Hrest : forall n mt, In (n, mt) items ->
                    (exists m, n = value m) /\ (0 <= m_avg_response_time mt)%Q)
    by (intros; apply Hok; now right).
  destruct (Hok name metrics (or_introl eq_refl)) as [[m Hm] Havg].
  destruct (m_requests metrics <? 10); [now apply IH|].
  destruct (Qeq_bool (m_avg_response_time metrics + 1) 0) eqn:E.
  { apply Qeq_bool_iff in E. lra. }
  destruct (Qltb sc _); [|now apply IH].
  rewrite (proj2 (method_of_name_value name m) Hm). now apply IH.
Qed.

(** Reliability-first on metrics whose keys are method values and whose
    averages are not negative: [suggest_method] returns.  It suggests
    playwright when no backend has 10 recorded requests and a positive
    score; otherwise a backend with at least 10 requests whose score
    [0.7 * success_rate + 0.3 / (1 + avg_response_time)] is positive and not
    beaten by any other backend with at least 10 requests. *)
Theorem suggest_method_reliability_first (items : list (string * Metrics))
    (r : ScrapeRequest) :
  (forall name metrics,
     In (name, metrics) items ->
     (exists m, name = value m) /\ (0 <= m_avg_response_time metrics)%Q) ->
  exists m,
    suggest_method items r RELIABILITY_FIRST = Returned m
    /\ ((m = PLAYWRIGHT
         /\ forall name metrics,
              In (name, metrics) items -> 10 <= m_requests metrics ->
              (performance_score metrics <= 0)%Q)
        \/ exists metrics,
             In (value m, metrics) items
             /\ 10 <= m_requests metrics
             /\ (0 < performance_score metrics)%Q
             /\ forall name' metrics',
                  In (name', metrics') items -> 10 <= m_requests metrics' ->
                  (performance_score metrics' <= performance_score metrics)%Q).
Proof.
  intros Hok. unfold suggest_method, _get_best_performing_method.
  destruct (best_performing_returns items Hok 0%Q None) as [result E].
  rewrite E.
  destruct (best_performing_spec items _ _ _ E)
    as [[-> Hall]|(n & mt & m & Hin & -> & -> & Hrest)].
  - exists PLAYWRIGHT. split; [reflexivity|]. left. auto.
  - exists m. split; [reflexivity|]. right. exists mt. tauto.
Qed.

Lemma suggest_method_reliability_first_witness :
  exists m,
    suggest_method
      [("scrapy", mkMetrics 12 6 24 0.5 2); ("pydoll", mkMetrics 20 19 20 0.95 1);
       ("playwright", mkMetrics 3 3 9 1 3)]
      (sample_request "r1" SCRAPY) RELIABILITY_FIRST = Returned m
    /\ m = PYDOLL.
Proof.
  destruct (suggest_method_reliability_first
              [("scrapy", mkMetrics 12 6 24 0.5 2);
               ("pydoll", mkMetrics 20 19 20 0.95 1);
               ("playwright", mkMetrics 3 3 9 1 3)]
              (sample_request "r1" SCRAPY)) as (m & E & _).
  - intros name metrics [H|[H|[H|[]]]]; inversion H; subst;
      (split; [|vm_compute; discriminate]);
      [exists SCRAPY | exists PYDOLL | exists PLAYWRIGHT]; reflexivity.
  - exists m. split; [exact E|].
    vm_compute in E. now inversion E.
Defined.

(** ** Batches, further *)

Section BatchFacts.
Context {World : Type} `{Env : Environment World}.
Implicit Types (s : Orchestrator World) (m : ScrapeMethod).

Lemma set_circuit_breakers_twice cb cb' s :
  set_circuit_breakers cb' (set_circuit_breakers cb s)
  = set_circuit_breakers cb' s.
Proof. reflexivity. Qed.

Lemma for_each_update_stored m (results : list ScrapeResult) : forall b s,
  circuit_breakers s !! value m = Some b ->
  for_each (fun result =>
              _update_circuit_breaker m
                (bool_decide (res_status result = SUCCESS))) results s
  = (Returned tt,
     set_circuit_breakers
       (<[value m := record_results b results (time_time (world s))]>
          (circuit_breakers s)) s).
Proof.
  induction results as [|res results IH]; intros b s Hb; simpl.
  - unfold ret, record_results. simpl. rewrite insert_id by exact Hb.
    now rewrite set_circuit_breakers_id.
  - rewrite (bind_returned _ _ _ _ _
               (update_circuit_breaker_stored m _ s b Hb)).
    rewrite (IH (breaker_update b (bool_decide (res_status res = SUCCESS))
                   (time_time (world s)))).
    + simpl. rewrite insert_insert_eq. reflexivity.
    + simpl. apply lookup_insert_eq.
Qed.

Lemma group_by_method_single m (r0 : ScrapeRequest) (rs : list ScrapeRequest) :
  Forall (fun r => req_method r = m) (r0 :: rs) ->
  group_by_method (r0 :: rs) = [(m, r0 :: rs)].
Proof.
  intros H. apply Forall_cons in H. destruct H as [H0 H].
  unfold group_by_method. simpl. rewrite H0.
  assert (Hg : forall acc,
             foldl (fun groups request =>
                      add_to_group (req_method request) request groups)
                   [(m, acc)] rs
             = [(m, acc ++ rs)]).
  { induction H as [|r rs Hr _ IH]; intros acc; simpl.
    - now rewrite app_nil_r.
    - rewrite bool_decide_eq_true_2 by congruence.
      rewrite IH, <- app_assoc. reflexivity. }
  apply Hg.
Qed.

Lemma record_results_failures (results : list ScrapeResult) (now : Q) b :
  Forall (fun result => res_status result <> SUCCESS) results ->
  record_results b results now
  = record_failures b (map (fun _ => now) results).
Proof.
  intros H. revert b. unfold record_results, record_failures.
  induction H as [|res results Hres _ IH]; intros b; simpl; [reflexivity|].
  rewrite bool_decide_eq_false_2 by exact Hres. apply IH.
Qed.

(** A batch for one backend that is admitted (breaker closed): the
    results are those of the extractor's batch capability, and each of them
    is recorded on the breaker, so a single batch with 5 results or more,
    none a success, opens a fresh breaker.  When the batch capability
    raises, every request gets a failed result made from the exception and
    the breaker records one failure, whatever the size of the batch. *)
Theorem batch_extract_records_outcomes m (r0 : ScrapeRequest)
    (rs : list ScrapeRequest) s b svc o w :
  Forall (fun r => req_method r = m) (r0 :: rs) ->
  circuit_breakers s !! value m = Some b ->
  state b = "closed" ->
  services s !! value m = Some svc ->
  batch_scrape m (service_after_set_proxy s svc) (r0 :: rs) (world s) = (o, w) ->
  exists s',
    batch_extract (r0 :: rs) s
    = (Returned match o with
                | Returned results => results
                | Raised e => map (exception_result e) (r0 :: rs)
                end, s')
    /\ circuit_breakers s'
       = <[value m := match o with
                      | Returned results =>
                          record_results b results (time_time w)
                      | Raised _ => breaker_update b false (time_time w)
                      end]> (circuit_breakers s)
    /\ (forall results,
          o = Returned results ->
          failure_count b = 0 -> failure_threshold b = 5 ->
          Forall (fun result => res_status result <> SUCCESS) results ->
          (5 <= length results)%nat ->
          state (record_results b results (time_time w)) = "open").
Proof.
  intros Hall Hb Hs Hsvc Hbatch.
  unfold batch_extract. rewrite (group_by_method_single m r0 rs Hall).
  assert (Hopen : forall results,
             o = Returned results ->
             failure_count b = 0 -> failure_threshold b = 5 ->
             Forall (fun result => res_status result <> SUCCESS) results ->
             (5 <= length results)%nat ->
             state (record_results b results (time_time w)) = "open").
  { intros results _ Hc Ht Hfail Hlen.
    rewrite (record_results_failures results _ b Hfail).
    rewrite (failures_from_zero b _ Hs Hc Ht). rewrite length_map.
    destruct (Z.leb_spec 5 (Z.of_nat (length results))); [reflexivity|lia]. }
  simpl process_groups.
  unfold bind at 1. unfold _is_method_available at 1, gets at 1.
  rewrite (bool_decide_eq_true_2 (is_Some _)) by eauto.
  rewrite (bind_returned _ _ _ _ _ (check_closed _ _ _ Hb Hs)).
  simpl negb. cbv iota.
  unfold service_after_set_proxy in Hbatch. revert Hbatch.
  unfold bind, gets, try_except, service_batch_scrape,
    service_set_proxy_config, get_service, modify, ret, bind.
  simpl.
  destruct (proxy_config s) as [pc|]; intros Hbatch; simpl; rewrite Hsvc;
    simpl; rewrite ?lookup_insert_eq; simpl; rewrite Hbatch;
    destruct o as [results|e]; simpl.
  - erewrite for_each_update_stored by (simpl; exact Hb).
    simpl. eexists. repeat split; auto.
  - unfold _update_circuit_breaker. simpl. rewrite Hb.
    simpl. eexists. repeat split; auto.
  - erewrite for_each_update_stored by (simpl; exact Hb).
    simpl. eexists. repeat split; auto.
  - unfold _update_circuit_breaker. simpl. rewrite Hb.
    simpl. eexists. repeat split; auto.
Qed.



Lemma set_proxy_step_eq m s :
  is_Some (services s !! value m) ->
  match proxy_config s with
  | Some pc => service_set_proxy_config m pc
  | None => ret tt
  end s = (Returned tt, after_set_proxy m s).
Proof.
  intros [svc Hsvc]. unfold after_set_proxy.
  destruct (proxy_config s) as [pc|]; [|reflexivity].
  unfold service_set_proxy_config, bind, get_service, modify.
  now rewrite Hsvc.
Qed.

Lemma batch_calls_after_set_proxy m s :
  batch_calls (invocations (after_set_proxy m s)) = batch_calls (invocations s).
Proof.
  unfold after_set_proxy. destruct (proxy_config s); [|reflexivity].
  simpl. unfold batch_calls. rewrite omap_app. simpl. apply app_nil_r.
Qed.

Lemma group_call_trace m (rs : list ScrapeRequest) s :
  is_Some (services s !! value m) ->
  exists results s',
    try_except
      (bind (service_batch_scrape m rs) (fun results =>
       bind (for_each
               (fun result =>
                  _update_circuit_breaker m
                    (bool_decide (res_status result = SUCCESS))) results)
            (fun _ => ret results)))
      (fun e =>
         bind (_update_circuit_breaker m false)
              (fun _ => ret (map (exception_result e) rs))) s
    = (Returned results, s')
    /\ invocations s' = invocations s ++ [CallBatchScrape m rs].
Proof.
  intros [svc Hsvc].
  unfold try_except, bind at 1, service_batch_scrape, bind at 1, get_service.
  rewrite Hsvc.
  destruct (batch_scrape m svc rs (world s)) as [[results|e] w].
  - destruct (for_each_update_returns m results
                (log_invocation (CallBatchScrape m rs) (set_world w s)))
      as (cb & E).
    unfold bind. rewrite E. unfold ret. eauto.
  - destruct (update_returns m false
                (log_invocation (CallBatchScrape m rs) (set_world w s)))
      as (cb & E).
    unfold bind. rewrite E. unfold ret. eauto.
Qed.

Lemma process_groups_trace groups : forall acc s,
  exists results s' called,
    process_groups groups acc s = (Returned results, s')
    /\ sublist called groups
    /\ batch_calls (invocations s') = batch_calls (invocations s) ++ called.
Proof.
  induction groups as [|[m rs] groups IH]; intros acc s.
  - exists acc, s, []. simpl. rewrite app_nil_r. repeat split. constructor.
  - assert (Hrej : forall acc' cb,
               exists results s' called,
                 process_groups groups acc' (set_circuit_breakers cb s)
                 = (Returned results, s')
                 /\ sublist called ((m, rs) :: groups)
                 /\ batch_calls (invocations s')
                    = batch_calls (invocations s) ++ called).
    { intros acc' cb.
      destruct (IH acc' (set_circuit_breakers cb s))
        as (results & s' & called & E & Hsub & Ht).
      exists results, s', called. split; [exact E|].
      split; [now apply sublist_cons|exact Ht]. }
    simpl. unfold bind at 1. unfold _is_method_available at 1, gets at 1.
    destruct (bool_decide_reflect (is_Some (services s !! value m)))
      as [Hm|Hm].
    + destruct (check_returns m s) as (ok & cb & E).
      rewrite (bind_returned _ _ _ _ _ E).
      destruct ok; simpl; [|apply Hrej].
      unfold bind at 1. unfold gets at 1.
      rewrite (bind_returned _ _ _ _ _
                 (set_proxy_step_eq m (set_circuit_breakers cb s) Hm)).
      destruct (group_call_trace m rs
                  (after_set_proxy m (set_circuit_breakers cb s)))
        as (results & s2 & E2 & Ht2).
      { unfold after_set_proxy. simpl. destruct (proxy_config s); simpl;
          [rewrite lookup_insert_eq; eauto | exact Hm]. }
      rewrite (bind_returned _ _ _ _ _ E2).
      destruct (IH (acc ++ results) s2) as (results' & s' & called & E' & Hsub & Ht).
      exists results', s', ((m, rs) :: called). split; [exact E'|].
      split; [now apply sublist_skip|].
      rewrite Ht, Ht2. unfold batch_calls at 1. rewrite omap_app.
      fold (batch_calls (invocations
                           (after_set_proxy m (set_circuit_breakers cb s)))).
      rewrite batch_calls_after_set_proxy. simpl.
      now rewrite <- app_assoc.
    + unfold bind at 1, ret at 1. simpl.
      specialize (Hrej (acc ++ map (unavailable_result m) rs)
                       (circuit_breakers s)).
      rewrite set_circuit_breakers_id in Hrej. exact Hrej.
Qed.

(** [batch_extract] returns whatever the extractors do, and calls
    [batch_scrape] at most once per backend: the calls it makes are, in
    order, some of the groups of the batch, each with all the requests of
    its backend. *)
Theorem batch_extract_one_call_per_backend (rs : list ScrapeRequest) s :
  exists results s' called,
    batch_extract rs s = (Returned results, s')
    /\ sublist called (group_by_method rs)
    /\ NoDup (map fst called)
    /\ batch_calls (invocations s') = batch_calls (invocations s) ++ called.
Proof.
  unfold batch_extract.
  destruct (process_groups_trace (group_by_method rs) [] s)
    as (results & s' & called & E & Hsub & Ht).
  exists results, s', called. repeat split; auto.
  destruct (group_by_method_invariant rs) as [[Hnd _] _].
  apply (sublist_NoDup (map fst called) (map fst (group_by_method rs)));
    first [exact Hnd | apply (fmap_sublist fst); exact Hsub].
Qed.


End BatchFacts.


(** ** Proxy selection *)

Lemma random_choice_in {A} (seq : list A) (draw : nat) (x : A) :
  random_choice seq draw = Some x -> x ∈ seq.
Proof. unfold random_choice. apply list_elem_of_lookup_2. Qed.

Lemma random_choice_nonempty {A} (seq : list A) (draw : nat) :
  seq <> [] -> is_Some (random_choice seq draw).
Proof.
  intros H. unfold random_choice. apply lookup_lt_is_Some.
  apply Nat.mod_upper_bound. destruct seq; [congruence|simpl; lia].
Qed.

Lemma min_of_spec (values : list Z) (v : Z) :
  min_of values = Some v -> v ∈ values /\ forall x, x ∈ values -> v <= x.
Proof.
  destruct values as [|v0 values]; [discriminate|]. simpl. intros H.
  inversion H; subst; clear H.
  assert (Hf : forall a,
             (foldl Z.min a values = a \/ foldl Z.min a values ∈ values)
             /\ foldl Z.min a values <= a
             /\ forall x, x ∈ values -> foldl Z.min a values <= x).
  { induction values as [|y values IH]; intros a; simpl.
    - split; [now left|]. split; [lia|]. intros x Hx. inversion Hx.
    - destruct (IH (Z.min a y)) as ([E|Hin] & Hle & Hall).
      + split.
        * destruct (Z.min_spec a y) as [[_ Hm]|[_ Hm]]; rewrite E, Hm;
            [now left | right; left].
        * split; [lia|]. intros x Hx. apply elem_of_cons in Hx.
          destruct Hx as [->|Hx]; [lia|now apply Hall].
      + split; [right; now right|]. split; [lia|].
        intros x Hx. apply elem_of_cons in Hx.
        destruct Hx as [->|Hx]; [lia|now apply Hall]. }
  destruct (Hf v0) as ([E|Hin] & Hle & Hall).
  - split; [rewrite E; left|].
    intros x Hx. apply elem_of_cons in Hx. destruct Hx as [->|Hx]; auto.
  - split; [now right|].
    intros x Hx. apply elem_of_cons in Hx. destruct Hx as [->|Hx]; auto.
Qed.

Lemma best_by_health_spec (proxy_list : list ProxyConfig) (p : ProxyConfig) :
  best_by_health proxy_list = Some p ->
  p ∈ proxy_list
  /\ forall q, q ∈ proxy_list -> (health_blend q <= health_blend p)%Q.
Proof.
  unfold best_by_health.
  assert (Hf : forall (l : list ProxyConfig) sc bp,
             (bp = None \/ exists b, bp = Some b /\ health_blend b = sc) ->
             let r := foldl
                        (fun '(best_score, best_proxy) proxy =>
                           let score :=
                             (health_score proxy * 0.7
                              + success_rate proxy * 0.3)%Q in
                           if Qltb best_score score then (score, Some proxy)
                           else (best_score, best_proxy)) (sc, bp) l in
             (sc <= fst r)%Q
             /\ (forall q, q ∈ l -> (health_blend q <= fst r)%Q)
             /\ (snd r = bp /\ fst r = sc
                 \/ exists b, snd r = Some b /\ b ∈ l /\ health_blend b = fst r)).
  { induction l as [|x l IH]; intros sc bp Hbp; simpl.
    - split; [lra|]. split; [intros q Hq; inversion Hq|]. now left.
    - fold (health_blend x).
      destruct (Qltb sc (health_blend x)) eqn:E;
        [apply Qltb_lt in E | apply Qltb_ge in E].
      + destruct (IH (health_blend x) (Some x)) as (H1 & H2 & H3);
          [right; eauto|].
        match goal with
        | |- context [foldl ?f ?a l] => set (r := foldl f a l) in *
        end.
        split; [lra|]. split.
        * intros q Hq. apply elem_of_cons in Hq.
          destruct Hq as [->|Hq]; [exact H1|now apply H2].
        * right. destruct H3 as [[E1 E2]|(b & E1 & Hin & E2)].
          -- exists x. rewrite E1, E2. split; [reflexivity|].
             split; [left|reflexivity].
          -- exists b. split; [exact E1|]. split; [now right|exact E2].
      + destruct (IH sc bp Hbp) as (H1 & H2 & H3).
        match goal with
        | |- context [foldl ?f ?a l] => set (r := foldl f a l) in *
        end.
        split; [exact H1|]. split.
        * intros q Hq. apply elem_of_cons in Hq.
          destruct Hq as [->|Hq]; [lra|now apply H2].
        * destruct H3 as [[E1 E2]|(b & E1 & Hin & E2)]; [now left|].
          right. exists b. split; [exact E1|]. split; [now right|exact E2]. }
  intros H. destruct (Hf proxy_list (-1)%Q None (or_introl eq_refl))
    as (_ & H2 & H3). simpl in H3.
  destruct H3 as [[E1 _]|(b & E1 & Hin & E2)]; [congruence|].
  rewrite E1 in H. inversion H; subst. split; [exact Hin|].
  intros q Hq. rewrite E2. now apply H2.
Qed.

Lemma select_proxy_in self (proxy_list : list ProxyConfig) strat d1 d2 p :
  _select_proxy self proxy_list strat d1 d2 = Some p -> p ∈ proxy_list.
Proof.
  destruct strat; simpl.
  - destruct (min_of _) as [v|]; simpl; [|discriminate].
    intros H. apply random_choice_in in H.
    apply list_elem_of_filter in H. tauto.
  - destruct (min_of _) as [v|]; simpl; [|discriminate].
    intros H. apply random_choice_in in H.
    apply list_elem_of_filter in H. tauto.
  - intros H. now apply best_by_health_spec in H.
  - apply random_choice_in.
  - apply random_choice_in.
  - destruct (min_of _) as [v|]; simpl; [|discriminate].
    destruct (random_choice _ d1) as [c|]; simpl; [|discriminate].
    intros H. apply random_choice_in in H.
    apply list_elem_of_filter in H. tauto.
Qed.

(** The sticky part of [get_proxy]: the proxy a live session is pinned to,
    if the pool still holds it as an active proxy. *)
Lemma sticky_lookup_spec self pool sid session p now :
  active_sessions self !! sid = Some session ->
  Qltb (now - created_at session)%Q
       (inject_Z (default (session_timeout pool) (duration session))) = true ->
  head (filter (fun q => _get_proxy_id q = proxy_id session) (proxies pool))
  = Some p ->
  p ∈ proxies pool /\ _get_proxy_id p = proxy_id session.
Proof.
  intros _ _ H. apply head_Some_elem_of in H.
  apply list_elem_of_filter in H. tauto.
Qed.

Lemma get_proxy_cases self pool_name session_id country_arg sticky_duration
    now draw1 draw2 p self' :
  get_proxy self pool_name session_id country_arg sticky_duration now
    draw1 draw2 = (Some p, self') ->
  exists pool,
    pools self !! pool_name = Some pool
    /\ p ∈ proxies pool
    /\ status p = ACTIVE
    /\ pools self' = pools self
    /\ ((self' = self
         /\ exists sid session,
              truthy_str session_id = Some sid
              /\ active_sessions self !! sid = Some session
              /\ proxy_id session = _get_proxy_id p)
        \/ forall c, truthy_str country_arg = Some c ->
                     country_matches c p = true).
Proof.
  unfold get_proxy.
  destruct (pools self !! pool_name) as [pool|] eqn:Hpool; [|discriminate].
  intros H. exists pool. split; [reflexivity|].
  match type of H with
  | match ?sticky with _ => _ end = _ => destruct sticky as [ps|] eqn:Est
  end.
  - inversion H; subst ps self'. clear H.
    destruct (truthy_str session_id) as [sid|] eqn:Esid; [|discriminate].
    simpl in Est.
    destruct (active_sessions self !! sid) as [session|] eqn:Esess;
      [|discriminate].
    simpl in Est.
    destruct (Qltb _ _) eqn:Et; [|discriminate].
    destruct (head _) as [q|] eqn:Eh; [|discriminate]. simpl in Est.
    destruct (bool_decide_reflect (status q = ACTIVE)); [|discriminate].
    inversion Est; subst q.
    destruct (sticky_lookup_spec self pool sid session p now Esess Et Eh)
      as [Hin Hid].
    repeat split; auto. left. split; [reflexivity|]. eauto 6.
  - clear Est.
    set (active := filter (fun q => status q = ACTIVE) (proxies pool)) in *.
    set (available :=
           match truthy_str country_arg with
           | Some c => filter (fun q => country_matches c q = true) active
           | None => active
           end) in *.
    assert (Hav : forall q, q ∈ available ->
                    q ∈ proxies pool /\ status q = ACTIVE
                    /\ forall c, truthy_str country_arg = Some c ->
                                 country_matches c q = true).
    { intros q Hq. subst available active.
      destruct (truthy_str country_arg) as [c|].
      - apply list_elem_of_filter in Hq. destruct Hq as [Hc Hq].
        apply list_elem_of_filter in Hq. destruct Hq as [Hs Hq].
        repeat split; auto. intros c' Hc'. now inversion Hc'; subst.
      - apply list_elem_of_filter in Hq. destruct Hq as [Hs Hq].
        repeat split; auto. discriminate. }
    destruct available as [|a available']; [discriminate|].
    destruct (_select_proxy self _ (strategy pool) draw1 draw2) as [q|] eqn:Esel;
      [|discriminate].
    inversion H; subst q self'. clear H.
    apply select_proxy_in in Esel. destruct (Hav p Esel) as (Hin & Hs & Hc).
    split; [exact Hin|]. split; [exact Hs|]. split; [|right; exact Hc].
    destruct (truthy_str session_id);
      rewrite (proj1 (update_proxy_stats_frame _ _ _ _)); reflexivity.
Qed.


Lemma head_filter_unique {A B} `{EqDecision B} (f : A -> B) (l : list A) (p : A) :
  NoDup (map f l) -> p ∈ l ->
  head (filter (fun x => f x = f p) l) = Some p.
Proof.
  induction l as [|x l IH]; intros Hnd Hin; [inversion Hin|].
  simpl in Hnd. apply NoDup_cons in Hnd. destruct Hnd as [Hx Hnd].
  apply elem_of_cons in Hin.
  destruct (decide (f x = f p)) as [E|E].
  - rewrite filter_cons_True by exact E. simpl. f_equal.
    destruct Hin as [->|Hin]; [reflexivity|].
    exfalso. apply Hx. rewrite E. now apply list_elem_of_fmap_2.
  - rewrite filter_cons_False by exact E.
    destruct Hin as [->|Hin]; [congruence|]. now apply IH.
Qed.

Ltac fresh_selection :=
  match goal with
  | |- context [_select_proxy ?s ?l ?st ?a ?b] =>
      let av := fresh "av" in
      set (av := l) in *; clearbody av;
      destruct av; [simpl; discriminate|];
      destruct (_select_proxy s _ st a b); [|simpl; discriminate]
  end.

Lemma get_proxy_session self pool_name session_id country_arg sticky_duration
    now draw1 draw2 p self' sid :
  truthy_str session_id = Some sid ->
  get_proxy self pool_name session_id country_arg sticky_duration now
    draw1 draw2 = (Some p, self') ->
  exists session,
    active_sessions self' !! sid = Some session
    /\ proxy_id session = _get_proxy_id p.
Proof.
  intros Hsid. unfold get_proxy.
  destruct (pools self !! pool_name) as [pool|]; [|discriminate].
  rewrite Hsid. simpl.
  destruct (active_sessions self !! sid) as [session|] eqn:Esess; simpl.
  - destruct (Qltb _ _) eqn:Et.
    + destruct (head _) as [q|] eqn:Eh; simpl.
      * destruct (bool_decide_reflect (status q = ACTIVE)).
        -- intros H. inversion H; subst. exists session.
           split; [exact Esess|]. apply head_Some_elem_of in Eh.
           apply list_elem_of_filter in Eh. symmetry. tauto.
        -- fresh_selection.
           intros H. inversion H; subst. eexists.
           rewrite (proj1 (proj2 (update_proxy_stats_frame _ _ _ _))). simpl.
           rewrite lookup_insert_eq. split; reflexivity.
      * fresh_selection.
        intros H. inversion H; subst. eexists.
        rewrite (proj1 (proj2 (update_proxy_stats_frame _ _ _ _))). simpl.
        rewrite lookup_insert_eq. split; reflexivity.
    + fresh_selection.
      intros H. inversion H; subst. eexists.
      rewrite (proj1 (proj2 (update_proxy_stats_frame _ _ _ _))). simpl.
      rewrite lookup_insert_eq. split; reflexivity.
  - fresh_selection.
    intros H. inversion H; subst. eexists.
    rewrite (proj1 (proj2 (update_proxy_stats_frame _ _ _ _))). simpl.
    rewrite lookup_insert_eq. split; reflexivity.
Qed.

(** Sticky sessions.  After [get_proxy] has handed out a proxy for a
    session id, the session is pinned to that proxy; and in a pool whose
    proxies have distinct identities, every later [get_proxy] with the
    session id made before the session expires returns the same proxy,
    whatever country or strategy draw it comes with, and changes nothing in
    the rotator: a sticky hit does not count as a request for the proxy. *)
Theorem sticky_session_returns_same_proxy self pool_name pool session_id sid
    country_arg sticky_duration now draw1 draw2 p self1 :
  pools self !! pool_name = Some pool ->
  NoDup (map _get_proxy_id (proxies pool)) ->
  truthy_str session_id = Some sid ->
  get_proxy self pool_name session_id country_arg sticky_duration now
    draw1 draw2 = (Some p, self1) ->
  exists session,
    active_sessions self1 !! sid = Some session
    /\ proxy_id session = _get_proxy_id p
    /\ forall now2 country_arg2 sticky_duration2 draw3 draw4,
         (now2 - created_at session
          < inject_Z (default (session_timeout pool) (duration session)))%Q ->
         get_proxy self1 pool_name session_id country_arg2 sticky_duration2
           now2 draw3 draw4 = (Some p, self1).
Proof.
  intros Hpool Hnd Hsid Hget.
  destruct (get_proxy_session _ _ _ _ _ _ _ _ _ _ _ Hsid Hget)
    as (session & Hsess & Hid).
  destruct (get_proxy_cases _ _ _ _ _ _ _ _ _ _ Hget)
    as (pool' & Hpool' & Hin & Hact & Hpools & _).
  rewrite Hpool in Hpool'. inversion Hpool'; subst pool'.
  exists session. split; [exact Hsess|]. split; [exact Hid|].
  intros now2 c2 d2 draw3 draw4 Ht. apply Qltb_lt in Ht.
  unfold get_proxy. rewrite Hpools, Hpool, Hsid. simpl.
  rewrite Hsess. simpl. rewrite Ht, Hid.
  rewrite (head_filter_unique _get_proxy_id (proxies pool) p Hnd Hin). simpl.
  rewrite bool_decide_eq_true_2 by exact Hact. reflexivity.
Qed.

Lemma sticky_session_returns_same_proxy_witness :
  get_proxy sample_rotator "default" (Some "s1") (Some "US") None 1799 0 0
  = (Some proxy_b, sample_rotator).
Proof.
  destruct (sticky_session_returns_same_proxy sample_rotator "default"
              sample_pool (Some "s1") "s1" None None 10 0 0 proxy_b
              sample_rotator eq_refl)
    as (session & Hs & _ & H).
  - apply (bool_decide_unpack _). vm_compute. exact I.
  - reflexivity.
  - reflexivity.
  - vm_compute in Hs. inversion Hs; subst session.
    apply H. vm_compute. reflexivity.
Defined.

(** A pool without an active proxy gives none: [get_proxy] returns [None]
    and leaves the rotator as it was, sticky session or not. *)
Theorem get_proxy_no_active_proxy self pool_name pool session_id country_arg
    sticky_duration now draw1 draw2 :
  pools self !! pool_name = Some pool ->
  Forall (fun p => status p <> ACTIVE) (proxies pool) ->
  get_proxy self pool_name session_id country_arg sticky_duration now
    draw1 draw2 = (None, self).
Proof.
  intros Hpool Hall. unfold get_proxy. rewrite Hpool.
  assert (Hnil : filter (fun p => status p = ACTIVE) (proxies pool) = []).
  { induction Hall as [|x l Hx _ IH]; [reflexivity|].
    now rewrite filter_cons_False. }
  rewrite Hnil.
  assert (Hav : match truthy_str country_arg with
                | Some c => filter (fun p => country_matches c p = true) []
                | None => []
                end = @nil ProxyConfig) by (destruct (truthy_str _); reflexivity).
  rewrite Hav.
  match goal with
  | |- match ?sticky with _ => _ end = _ =>
      assert (Est : sticky = None); [|rewrite Est; reflexivity]
  end.
  destruct (truthy_str session_id) as [sid|]; [|reflexivity]. simpl.
  destruct (active_sessions self !! sid) as [session|]; [|reflexivity]. simpl.
  destruct (Qltb _ _); [|reflexivity].
  destruct (head _) as [q|] eqn:Eh; [|reflexivity]. simpl.
  apply head_Some_elem_of in Eh. apply list_elem_of_filter in Eh.
  destruct Eh as [_ Hin]. rewrite Forall_forall in Hall.
  rewrite bool_decide_eq_false_2 by (apply Hall; exact Hin). reflexivity.
Qed.

Lemma best_by_health_none (proxy_list : list ProxyConfig) :
  best_by_health proxy_list = None ->
  forall q, q ∈ proxy_list -> (health_blend q <= -1)%Q.
Proof.
  unfold best_by_health.
  assert (Hf : forall (l : list ProxyConfig) sc bp,
             snd (foldl
                    (fun '(best_score, best_proxy) proxy =>
                       let score :=
                         (health_score proxy * 0.7
                          + success_rate proxy * 0.3)%Q in
                       if Qltb best_score score then (score, Some proxy)
                       else (best_score, best_proxy)) (sc, bp) l) = None ->
             bp = None /\ forall q, q ∈ l -> (health_blend q <= sc)%Q).
  { induction l as [|x l IH]; intros sc bp; simpl.
    - intros ->. split; [reflexivity|]. intros q Hq. inversion Hq.
    - fold (health_blend x).
      destruct (Qltb sc (health_blend x)) eqn:E;
        [apply Qltb_lt in E | apply Qltb_ge in E]; intros H.
      + destruct (IH _ _ H) as [Hx _]. discriminate Hx.
      + destruct (IH _ _ H) as [Hbp Hall]. split; [exact Hbp|].
        intros q Hq. apply elem_of_cons in Hq.
        destruct Hq as [->|Hq]; [exact E|now apply Hall]. }
  intros H. now destruct (Hf proxy_list (-1)%Q None H).
Qed.

(** The health-based strategy does not draw and does not consult the
    store: it selects a proxy whose blend of health score and success rate,
    [0.7 * health_score + 0.3 * success_rate], is not beaten in the list,
    and it selects one whenever some proxy of the list has a blend above
    -1. *)
Theorem health_based_selection self (proxy_list : list ProxyConfig)
    (draw1 draw2 : nat) :
  _select_proxy self proxy_list HEALTH_BASED draw1 draw2
  = best_by_health proxy_list
  /\ (forall p,
        best_by_health proxy_list = Some p ->
        p ∈ proxy_list
        /\ forall q, q ∈ proxy_list -> (health_blend q <= health_blend p)%Q)
  /\ (forall q, q ∈ proxy_list -> (-1 < health_blend q)%Q ->
      is_Some (best_by_health proxy_list)).
Proof.
  split; [reflexivity|]. split; [apply best_by_health_spec|].
  intros q Hq Hgt. destruct (best_by_health proxy_list) eqn:E; [eauto|].
  pose proof (best_by_health_none proxy_list E q Hq). lra.
Qed.

Lemma usage_selection (usage : ProxyConfig -> Z) (proxy_list : list ProxyConfig)
    (draw : nat) :
  proxy_list <> [] ->
  exists p,
    (min_usage ← min_of (map usage proxy_list);
     random_choice (filter (fun p => usage p = min_usage) proxy_list) draw)
    = Some p
    /\ p ∈ proxy_list
    /\ forall q, q ∈ proxy_list -> usage p <= usage q.
Proof.
  intros Hne.
  destruct (min_of (map usage proxy_list)) as [v|] eqn:Emin;
    [|destruct proxy_list; [congruence|discriminate]].
  destruct (min_of_spec _ _ Emin) as [Hin Hle]. simpl.
  apply list_elem_of_fmap in Hin. destruct Hin as (p0 & Hp0 & Hin0).
  destruct (random_choice_nonempty
              (filter (fun p => usage p = v) proxy_list) draw) as [p Hp].
  { intros Hnil.
    assert (Hp0' : p0 ∈ filter (fun p => usage p = v) proxy_list)
      by (apply list_elem_of_filter; auto).
    rewrite Hnil in Hp0'. inversion Hp0'. }
  exists p. split; [exact Hp|].
  apply random_choice_in in Hp. apply list_elem_of_filter in Hp.
  destruct Hp as [Hv Hin]. split; [exact Hin|].
  intros q Hq. rewrite Hv. apply Hle. now apply list_elem_of_fmap_2.
Qed.

(** On a non-empty list the round-robin strategy selects a proxy with the
    fewest requests over its lifetime, and the least-used strategy one with
    the fewest requests in flight, both as counted in the stats store. *)
Theorem usage_based_selection self (proxy_list : list ProxyConfig)
    (draw1 draw2 : nat) :
  proxy_list <> [] ->
  (exists p,
     _select_proxy self proxy_list ROUND_ROBIN draw1 draw2 = Some p
     /\ p ∈ proxy_list
     /\ forall q, q ∈ proxy_list ->
                  lifetime_requests self p <= lifetime_requests self q)
  /\ (exists p,
        _select_proxy self proxy_list LEAST_USED draw1 draw2 = Some p
        /\ p ∈ proxy_list
        /\ forall q, q ∈ proxy_list ->
                     in_flight_requests self p <= in_flight_requests self q).
Proof.
  intros Hne. split.
  - apply (usage_selection (lifetime_requests self) proxy_list draw1 Hne).
  - apply (usage_selection (in_flight_requests self) proxy_list draw1 Hne).
Qed.

Lemma usage_based_selection_witness :
  _select_proxy sample_rotator [proxy_a; proxy_b] ROUND_ROBIN 0 0
  = Some proxy_a.
Proof.
  destruct (usage_based_selection sample_rotator [proxy_a; proxy_b] 0 0)
    as [(p & E & _) _]; [discriminate|].
  rewrite E. vm_compute in E. symmetry. exact E.
Defined.

(** ** Counters of the stats store *)

Lemma stats_after_update self p event now store :
  redis self = Some store ->
  redis (_update_proxy_stats self p event now)
  = Some (<[_get_proxy_id p :=
              updated_stats (_get_proxy_stats self (_get_proxy_id p)) event now]>
            store)
  /\ _get_proxy_stats (_update_proxy_stats self p event now) (_get_proxy_id p)
     = updated_stats (_get_proxy_stats self (_get_proxy_id p)) event now.
Proof.
  intros H. unfold _update_proxy_stats. rewrite H. simpl. split; [reflexivity|].
  unfold _get_proxy_stats at 1. simpl. now rewrite lookup_insert_eq.
Qed.

(** Acquiring a proxy without a session id and releasing it again, with
    the store connected: the lifetime count of the proxy has gone up by
    one, its in-flight count went up by one with the acquisition and is
    back where it was after the release (at 0 if it was negative), and the
    sticky sessions and pools are untouched. *)
Theorem acquire_release_counters self store pool_name country_arg
    sticky_duration now draw1 draw2 p self1 now2 :
  redis self = Some store ->
  get_proxy self pool_name None country_arg sticky_duration now draw1 draw2
  = (Some p, self1) ->
  in_flight_requests self1 p = in_flight_requests self p + 1
  /\ lifetime_requests self1 p = lifetime_requests self p + 1
  /\ in_flight_requests (release_proxy self1 p None now2) p
     = Z.max 0 (in_flight_requests self p)
  /\ lifetime_requests (release_proxy self1 p None now2) p
     = lifetime_requests self p + 1
  /\ active_sessions (release_proxy self1 p None now2) = active_sessions self
  /\ pools (release_proxy self1 p None now2) = pools self.
Proof.
  intros Hredis. unfold get_proxy.
  destruct (pools self !! pool_name) as [pool|]; [|discriminate].
  simpl. fresh_selection. intros H. inversion H; subst. clear H.
  unfold release_proxy. simpl.
  destruct (stats_after_update self p selected now store Hredis) as [R1 S1].
  destruct (stats_after_update _ p released now2 _ R1) as [R2 S2].
  unfold in_flight_requests, lifetime_requests. rewrite S2, S1. simpl.
  repeat split; try lia.
  - now rewrite !(proj1 (proj2 (update_proxy_stats_frame _ _ _ _))).
  - now rewrite !(proj1 (update_proxy_stats_frame _ _ _ _)).
Qed.

Lemma acquire_release_counters_witness :
  in_flight_requests
    (release_proxy
       (snd (get_proxy sample_rotator "default" None None None 10 0 0))
       proxy_a None 11) proxy_a
  = Z.max 0 (in_flight_requests sample_rotator proxy_a).
Proof.
  refine (proj1 (proj2 (proj2
    (acquire_release_counters sample_rotator _ "default" None None 10 0 0
       proxy_a
       (snd (get_proxy sample_rotator "default" None None None 10 0 0))
       11 eq_refl _)))).
  vm_compute. reflexivity.
Defined.

(** ** Health sweep *)

(** The sweep of a pool keeps the proxies in place and changes nothing of
    a proxy but its status.  A proxy marked failed stays failed; every
    other proxy, an inactive one included, gets the status its health score
    gives (blocked below 0.2, rate-limited below 0.4, else active).
    Sweeping twice is sweeping once. *)
Theorem health_check_pool_effect (pool : ProxyPool) :
  name (_health_check_pool pool) = name pool
  /\ strategy (_health_check_pool pool) = strategy pool
  /\ Forall2 (fun p q =>
                q = set_status (status q) p
                /\ (status p = PROXY_FAILED -> status q = PROXY_FAILED)
                /\ (status p <> PROXY_FAILED ->
                    status q = health_check_status (health_score p)
                    /\ status q <> PROXY_FAILED /\ status q <> INACTIVE))
             (proxies pool) (proxies (_health_check_pool pool))
  /\ _health_check_pool (_health_check_pool pool) = _health_check_pool pool.
Proof.
  assert (Hst : forall h, health_check_status h <> PROXY_FAILED
                          /\ health_check_status h <> INACTIVE).
  { intros h. unfold health_check_status.
    repeat destruct (Qltb _ _); split; discriminate. }
  split; [reflexivity|]. split; [reflexivity|]. split.
  - unfold _health_check_pool. simpl.
    induction (proxies pool) as [|p l IH]; simpl; constructor; [|exact IH].
    unfold health_check_proxy.
    destruct (bool_decide_reflect (status p = PROXY_FAILED)) as [E|E].
    + split; [now destruct p|]. split; [auto|congruence].
    + simpl. split; [reflexivity|]. split; [congruence|].
      intros _. split; [reflexivity|apply Hst].
  - unfold _health_check_pool. simpl. unfold set_proxies. simpl. f_equal.
    rewrite map_map. apply map_ext. intros p. unfold health_check_proxy.
    destruct (bool_decide_reflect (status p = PROXY_FAILED)) as [E|E].
    + now rewrite bool_decide_eq_true_2.
    + simpl. rewrite bool_decide_eq_false_2 by apply Hst. reflexivity.
Qed.

(** ** VPN rotation *)

Lemma recent_failures_total_reset (stats : gmap string Stats) :
  map_fold (fun _ st total => total + default 0 (st_recent_failures st)) 0
           (reset_recent_failures <$> stats) = 0.
Proof.
  assert (H : forall m : gmap string Stats,
             (forall i x, m !! i = Some x -> st_recent_failures x = Some 0) ->
             map_fold (fun _ st total =>
                         total + default 0 (st_recent_failures st)) 0 m = 0).
  { intros m.
    apply (map_fold_weak_ind
             (fun r (m : gmap string Stats) =>
                (forall i x, m !! i = Some x -> st_recent_failures x = Some 0)
                -> r = 0)).
    - reflexivity.
    - intros i x m' r Hnone IH Hall.
      rewrite (Hall i x) by apply lookup_insert_eq. simpl.
      rewrite IH; [reflexivity|].
      intros j y Hj. apply (Hall j y).
      rewrite lookup_insert_ne; [exact Hj|]. intros ->. congruence. }
  apply H. intros i x Hx. rewrite lookup_fmap in Hx.
  destruct (stats !! i); inversion Hx. reflexivity.
Qed.

Lemma add_vpn_proxy_twice (v1 v2 : ProxyConfig) (pool : ProxyPool) :
  provider v1 = PRIVATE_INTERNET_ACCESS ->
  add_vpn_proxy v2 (add_vpn_proxy v1 pool) = add_vpn_proxy v2 pool.
Proof.
  intros Hv. unfold add_vpn_proxy, set_proxies. simpl. f_equal.
  rewrite filter_app. rewrite list_filter_filter.
  rewrite (filter_cons_False _ v1) by (intros H; now apply H).
  simpl. rewrite app_nil_r. f_equal.
  apply list_filter_iff. intros p. tauto.
Qed.

(** [rotate_vpn_if_needed]: without a VPN manager, or while the recent
    failures recorded in [self.proxy_stats] stay below the threshold,
    nothing happens and the answer is [False], whatever the manager would
    say.  When the threshold is reached and the manager rotates and hands
    over a proxy of provider PIA, the answer is [True], every recent-failure
    counter is 0 and every pool holds its proxies of other providers in
    their order followed by the new proxy as its only PIA proxy; so a
    rotation replaces the proxy of the rotation before. *)
Theorem rotate_vpn_if_needed_effect self (failure_threshold : Z) :
  rotate_vpn_if_needed self None failure_threshold = (false, self)
  /\ (forall vpn,
        recent_failures_total self < failure_threshold ->
        rotate_vpn_if_needed self (Some vpn) failure_threshold = (false, self))
  /\ (forall vpn_proxy,
        failure_threshold <= recent_failures_total self ->
        provider vpn_proxy = PRIVATE_INTERNET_ACCESS ->
        let self' :=
          snd (rotate_vpn_if_needed self
                 (Some (mkVPNManager true (Returned (Some vpn_proxy))))
                 failure_threshold) in
        fst (rotate_vpn_if_needed self
               (Some (mkVPNManager true (Returned (Some vpn_proxy))))
               failure_threshold) = true
        /\ recent_failures_total self' = 0
        /\ (forall pool_name,
              proxies <$> pools self' !! pool_name
              = (fun pool =>
                   filter (fun p => provider p ≠ PRIVATE_INTERNET_ACCESS)
                          (proxies pool) ++ [vpn_proxy])
                <$> pools self !! pool_name)
        /\ (forall later,
              pools (_add_vpn_proxy_to_pools self' later)
              = pools (_add_vpn_proxy_to_pools self later))).
Proof.
  split; [reflexivity|]. split.
  - intros vpn Hlt. unfold rotate_vpn_if_needed.
    destruct (Z.leb_spec failure_threshold (recent_failures_total self));
      [lia|reflexivity].
  - intros v Hge Hv. unfold rotate_vpn_if_needed. simpl.
    destruct (Z.leb_spec failure_threshold (recent_failures_total self));
      [|lia].
    simpl. split; [reflexivity|]. split; [|split].
    + unfold recent_failures_total. simpl. apply recent_failures_total_reset.
    + intros pool_name. rewrite lookup_fmap.
      destruct (pools self !! pool_name); reflexivity.
    + intros later. simpl. rewrite <- map_fmap_compose.
      apply map_fmap_ext. intros i pool _. simpl.
      now apply add_vpn_proxy_twice.
Qed.

Lemma rotate_vpn_if_needed_effect_witness :
  rotate_vpn_if_needed sample_rotator
    (Some (mkVPNManager true (Returned None))) 3
  = (false, sample_rotator).
Proof.
  refine (proj1 (proj2 (rotate_vpn_if_needed_effect sample_rotator 3)) _ _).
  vm_compute. reflexivity.
Defined.

(** ** Pools *)

(** Adding a pool under a new name and removing it again gives the rotator
    back, when the store is connected; without a client the removal raises
    [AttributeError], and the pool is gone all the same.  Either way
    [get_proxy] on the removed name returns [None]. *)
Theorem add_remove_proxy_pool self (pool : ProxyPool) :
  pools self !! name pool = None ->
  (is_Some (redis self) ->
   remove_proxy_pool (add_proxy_pool self pool) (name pool) = (Returned tt, self))
  /\ (redis self = None ->
      exists e,
        remove_proxy_pool (add_proxy_pool self pool) (name pool)
        = (Raised e, self)
        /\ exc_type e = "AttributeError")
  /\ (forall session_id country_arg sticky_duration now draw1 draw2,
        let self' :=
          snd (remove_proxy_pool (add_proxy_pool self pool) (name pool)) in
        get_proxy self' (name pool) session_id country_arg sticky_duration
          now draw1 draw2 = (None, self')).
Proof.
  intros Hnew.
  assert (Hback : set_pools (delete (name pool)
                               (pools (add_proxy_pool self pool)))
                            (add_proxy_pool self pool)
                  = self).
  { unfold add_proxy_pool, set_pools. simpl.
    rewrite delete_insert_eq, delete_id by exact Hnew. now destruct self. }
  unfold remove_proxy_pool.
  replace (pools (add_proxy_pool self pool) !! name pool) with (Some pool)
    by (unfold add_proxy_pool; simpl; now rewrite lookup_insert_eq).
  cbv zeta. rewrite Hback.
  split; [|split].
  - intros [store Hs]. now rewrite Hs.
  - intros Hs. rewrite Hs. eexists. split; reflexivity.
  - intros. unfold get_proxy.
    destruct (redis self); simpl; now rewrite Hnew.
Qed.

Lemma add_remove_proxy_pool_witness :
  remove_proxy_pool
    (add_proxy_pool sample_rotator (mkProxyPool "premium" [proxy_a] RANDOM 300 10 3600))
    "premium"
  = (Returned tt, sample_rotator).
Proof.
  refine (proj1 (add_remove_proxy_pool sample_rotator
                   (mkProxyPool "premium" [proxy_a] RANDOM 300 10 3600) _) _).
  - reflexivity.
  - eexists. reflexivity.
Defined.

(** ** Reports and the stats store *)

Lemma get_proxy_id_set_status v p :
  _get_proxy_id (set_status v p) = _get_proxy_id p.
Proof. reflexivity. Qed.







(** The failures that [report_proxy_result] records go to the stats store;
    [rotate_vpn_if_needed] adds up [recent_failures] over the in-memory
    [self.proxy_stats], which no report writes.  So no run of reports
    changes the sum or the answer of [rotate_vpn_if_needed], and on a
    rotator whose [proxy_stats] is empty, as [__init__] leaves it, a
    positive threshold is never reached: the answer is [False] and nothing
    is rotated, however many failures were reported. *)
Theorem reports_do_not_trigger_vpn_rotation self p calls vpn_manager
    (failure_threshold : Z) :
  let self' := fst (report_results self p calls) in
  recent_failures_total self' = recent_failures_total self
  /\ fst (rotate_vpn_if_needed self' vpn_manager failure_threshold)
     = fst (rotate_vpn_if_needed self vpn_manager failure_threshold)
  /\ (proxy_stats self = ∅ -> 0 < failure_threshold ->
      rotate_vpn_if_needed self' vpn_manager failure_threshold
      = (false, self')).
Proof.
  cbv zeta.
  assert (Hframe : proxy_stats (fst (report_results self p calls))
                   = proxy_stats self).
  { revert self p. induction calls as [|[[ok rt] now] calls IH]; intros self p.
    - reflexivity.
    - simpl. unfold report_proxy_result.
      destruct (update_health_score p ok) as [[u|e] p1]; simpl.
      + rewrite IH. apply update_proxy_stats_frame.
      + apply IH. }
  assert (Htotal : recent_failures_total (fst (report_results self p calls))
                   = recent_failures_total self).
  { unfold recent_failures_total. now rewrite Hframe. }
  split; [exact Htotal|]. split.
  - unfold rotate_vpn_if_needed. rewrite Htotal.
    destruct vpn_manager as [vpn|]; [|reflexivity].
    destruct (failure_threshold <=? recent_failures_total self);
      [|reflexivity].
    destruct (vpn_rotate_server vpn); [|reflexivity].
    destruct (vpn_get_proxy_config vpn) as [[v|]|e]; reflexivity.
  - intros Hempty Hpos. unfold rotate_vpn_if_needed. rewrite Htotal.
    destruct vpn_manager as [vpn|]; [|reflexivity].
    assert (H0 : recent_failures_total self = 0).
    { unfold recent_failures_total. rewrite Hempty. apply map_fold_empty. }
    rewrite H0.
    destruct (Z.leb_spec failure_threshold 0); [lia|reflexivity].
Qed.

Lemma reports_do_not_trigger_vpn_rotation_witness :
  fst (rotate_vpn_if_needed
         (fst (report_results sample_rotator proxy_a
                 [(false, None, 1%Q); (false, None, 2%Q); (false, None, 3%Q)]))
         (Some (mkVPNManager true (Returned (Some proxy_b)))) 3)
  = false.
Proof.
  rewrite (proj2 (proj2 (reports_do_not_trigger_vpn_rotation sample_rotator
                           proxy_a
                           [(false, None, 1%Q); (false, None, 2%Q);
                            (false, None, 3%Q)]
                           (Some (mkVPNManager true (Returned (Some proxy_b))))
                           3))).
  - reflexivity.
  - reflexivity.
  - lia.
Defined.

(** ** The counters of the proxy record *)

Lemma update_health_score_counters p ok :
  0 <= failed_requests p <= total_requests p ->
  exists p',
    update_health_score p ok = (Returned tt, p')
    /\ total_requests p' = total_requests p + 1
    /\ failed_requests p' = failed_requests p + (if ok then 0 else 1)
    /\ (success_rate p'
        == inject_Z (total_requests p' - failed_requests p')
           / inject_Z (total_requests p'))%Q
    /\ status p' = status p
    /\ _get_proxy_id p' = _get_proxy_id p.
Proof.
  intros H. unfold update_health_score.
  destruct ok; simpl;
    (destruct (Z.eqb_spec (total_requests p + 1) 0); [lia|]);
    eexists; (split; [reflexivity|]); simpl;
    repeat split; try reflexivity; lia.
Qed.

(** A run of [update_health_score] calls on a proxy whose counters satisfy
    [0 <= failed_requests <= total_requests] never raises; at its end
    [total_requests] has gone up by the number of calls and
    [failed_requests] by the number of failures among them, the counters
    still satisfy the inequality, and after at least one call
    [success_rate] is the share of the requests that did not fail, a value
    that [validate_score] accepts. *)
Theorem update_health_scores_counters p outcomes :
  0 <= failed_requests p <= total_requests p ->
  exists p',
    update_health_scores p outcomes = (Returned tt, p')
    /\ total_requests p' = total_requests p + Z.of_nat (length outcomes)
    /\ failed_requests p'
       = failed_requests p
         + Z.of_nat (length (filter (fun ok => ok = false) outcomes))
    /\ 0 <= failed_requests p' <= total_requests p'
    /\ (outcomes <> [] ->
        (success_rate p'
         == inject_Z (total_requests p' - failed_requests p')
            / inject_Z (total_requests p'))%Q
        /\ validate_score (success_rate p') = Returned (success_rate p')).
Proof.
  revert p. induction outcomes as [|ok outcomes IH]; intros p H.
  - exists p. simpl.
    split; [reflexivity|]. split; [lia|]. split; [lia|]. split; [lia|].
    intros Hne. now contradiction Hne.
  - destruct (update_health_score_counters p ok H)
      as (p1 & E & T1 & F1 & S1 & _).
    assert (H1 : 0 <= failed_requests p1 <= total_requests p1)
      by (destruct ok; lia).
    destruct (IH p1 H1) as (p' & E' & T' & F' & B' & S').
    exists p'. simpl update_health_scores. rewrite E. 
    split; [exact E'|]. split; [|split; [|split; [exact B'|]]].
    + rewrite T', T1. simpl length. lia.
    + rewrite F', F1. destruct ok.
      * rewrite filter_cons_False by discriminate. lia.
      * rewrite filter_cons_True by reflexivity. simpl length. lia.
    + intros _.
      assert (Hrate : (success_rate p'
                       == inject_Z (total_requests p' - failed_requests p')
                          / inject_Z (total_requests p'))%Q).
      { destruct outcomes as [|ok' outcomes'].
        - simpl in E'. inversion E'. subst p'. exact S1.
        - apply S'. discriminate. }
      split; [exact Hrate|].
      assert (Hpos : 0 < total_requests p') by (rewrite T', T1; lia).
      assert (Hb : (0 <= success_rate p' <= 1)%Q).
      { rewrite Hrate. apply Qdiv_unit_interval; lia. }
      unfold validate_score.
      destruct Hb as [Hb0 Hb1].
      apply Qle_bool_iff in Hb0. apply Qle_bool_iff in Hb1.
      now rewrite Hb0, Hb1.
Qed.

Lemma update_health_scores_counters_witness :
  exists p',
    update_health_scores proxy_a [true; false; true] = (Returned tt, p')
    /\ total_requests p' = total_requests proxy_a + 3.
Proof.
  destruct (update_health_scores_counters proxy_a [true; false; true])
    as (p' & E & T & _).
  - vm_compute. split; discriminate.
  - exists p'. split; [exact E | exact T].
Defined.

(** ** Runs of failures and of successes *)

Lemma report_results_last_status self p calls :
  0 <= total_requests p ->
  calls <> [] ->
  status (snd (report_results self p calls))
  = report_status (health_score (snd (report_results self p calls))).
Proof.
  revert self p. induction calls as [|[[ok rt] now] calls IH];
    intros self p Ht Hne; [now contradiction Hne|].
  pose proof (report_proxy_result_step self p ok rt now Ht) as (_ & S & T).
  simpl report_results.
  destruct (report_proxy_result self p ok rt now) as [self1 p1].
  simpl in S, T.
  destruct calls as [|c calls'].
  - simpl. exact S.
  - apply IH; [lia|discriminate].
Qed.

Lemma inject_Z_succ (n : nat) :
  (inject_Z (Z.of_nat (S n)) == inject_Z (Z.of_nat n) + 1)%Q.
Proof. rewrite Nat2Z.inj_succ, <- Z.add_1_r, inject_Z_plus. reflexivity. Qed.

Lemma failing_run_health self p calls :
  0 <= total_requests p ->
  Forall (fun c => fst (fst c) = false) calls ->
  (health_score (snd (report_results self p calls))
   <= Qmax 0 (health_score p - 0.05 * inject_Z (Z.of_nat (length calls))))%Q.
Proof.
  revert self p. induction calls as [|[[ok rt] now] calls IH];
    intros self p Ht Hall.
  - simpl. destruct (Qmax_spec 0 (health_score p - 0.05 * inject_Z 0))
      as (_ & H & _).
    assert (E : (health_score p - 0.05 * inject_Z 0 == health_score p)%Q)
      by (unfold inject_Z; lra).
    rewrite E in H at 1. exact H.
  - inversion Hall as [|c l Hc Hrest]; subst. simpl in Hc. subst ok.
    pose proof (report_proxy_result_step self p false rt now Ht) as (H & _ & T).
    simpl report_results.
    destruct (report_proxy_result self p false rt now) as [self1 p1].
    simpl in H, T.
    assert (Ht1 : 0 <= total_requests p1) by lia.
    specialize (IH self1 p1 Ht1 Hrest). rewrite H in IH.
    change (length ((false, rt, now) :: calls)) with (S (length calls)).
    pose proof (inject_Z_succ (length calls)) as En.
    set (n1 := inject_Z (Z.of_nat (S (length calls)))) in *.
    set (n := inject_Z (Z.of_nat (length calls))) in *.
    set (h := health_score p) in *.
    set (h' := health_score (snd (report_results self1 p1 calls))) in *.
    destruct (Qmax_spec 0 (h - 0.05)) as (A1 & A2 & [A3|A3]);
      destruct (Qmax_spec 0 (Qmax 0 (h - 0.05) - 0.05 * n))
        as (B1 & B2 & [B3|B3]);
      destruct (Qmax_spec 0 (h - 0.05 * n1)) as (C1 & C2 & [C3|C3]);
      rewrite ?A3 in *; rewrite ?B3 in *; rewrite ?C3 in *;
      assert (Hn : (0 <= n)%Q)
        by (subst n; change 0%Q with (inject_Z 0);
            rewrite <- Zle_Qle; lia);
      lra.
Qed.

Lemma succeeding_run_health self p calls :
  0 <= total_requests p ->
  Forall (fun c => fst (fst c) = true) calls ->
  (Qmin 1 (health_score p + 0.01 * inject_Z (Z.of_nat (length calls)))
   <= health_score (snd (report_results self p calls)))%Q.
Proof.
  revert self p. induction calls as [|[[ok rt] now] calls IH];
    intros self p Ht Hall.
  - simpl. destruct (Qmin_spec 1 (health_score p + 0.01 * inject_Z 0))
      as (_ & H & _).
    assert (E : (health_score p + 0.01 * inject_Z 0 == health_score p)%Q)
      by (unfold inject_Z; lra).
    rewrite E in H at 2. exact H.
  - inversion Hall as [|c l Hc Hrest]; subst. simpl in Hc. subst ok.
    pose proof (report_proxy_result_step self p true rt now Ht) as (H & _ & T).
    simpl report_results.
    destruct (report_proxy_result self p true rt now) as [self1 p1].
    simpl in H, T.
    assert (Ht1 : 0 <= total_requests p1) by lia.
    specialize (IH self1 p1 Ht1 Hrest). rewrite H in IH.
    change (length ((true, rt, now) :: calls)) with (S (length calls)).
    pose proof (inject_Z_succ (length calls)) as En.
    set (n1 := inject_Z (Z.of_nat (S (length calls)))) in *.
    set (n := inject_Z (Z.of_nat (length calls))) in *.
    set (h := health_score p) in *.
    set (h' := health_score (snd (report_results self1 p1 calls))) in *.
    destruct (Qmin_spec 1 (h + 0.01)) as (A1 & A2 & [A3|A3]);
      destruct (Qmin_spec 1 (Qmin 1 (h + 0.01) + 0.01 * n))
        as (B1 & B2 & [B3|B3]);
      destruct (Qmin_spec 1 (h + 0.01 * n1)) as (C1 & C2 & [C3|C3]);
      rewrite ?A3 in *; rewrite ?B3 in *; rewrite ?C3 in *;
      assert (Hn : (0 <= n)%Q)
        by (subst n; change 0%Q with (inject_Z 0);
            rewrite <- Zle_Qle; lia);
      lra.
Qed.

(** Fifteen failed reports in a row leave any proxy with a health score of
    at most 1 blocked, whatever its status was; and more than fifty
    successful reports in a row leave any proxy with a health score of at
    least 0 active again.  (The request counter of the proxy is not
    negative, so that no report raises.) *)
Theorem consecutive_reports_settle_status self p calls :
  0 <= total_requests p ->
  ((health_score p <= 1)%Q ->
   Forall (fun c => fst (fst c) = false) calls ->
   (15 <= length calls)%nat ->
   status (snd (report_results self p calls)) = BLOCKED)
  /\ ((0 <= health_score p)%Q ->
      Forall (fun c => fst (fst c) = true) calls ->
      (51 <= length calls)%nat ->
      status (snd (report_results self p calls)) = ACTIVE).
Proof.
  intros Ht. split; intros Hh Hall Hlen.
  - rewrite report_results_last_status;
      [|exact Ht|intros ->; simpl in Hlen; lia].
    apply report_status_cases.
    pose proof (failing_run_health self p calls Ht Hall) as H.
    assert (Hn : (15 <= inject_Z (Z.of_nat (length calls)))%Q)
      by (change 15%Q with (inject_Z 15); rewrite <- Zle_Qle; lia).
    set (n := inject_Z (Z.of_nat (length calls))) in *.
    set (h' := health_score (snd (report_results self p calls))) in *.
    destruct (Qmax_spec 0 (health_score p - 0.05 * n)) as (_ & _ & [A|A]);
      rewrite A in H; lra.
  - rewrite report_results_last_status;
      [|exact Ht|intros ->; simpl in Hlen; lia].
    apply report_status_cases.
    pose proof (succeeding_run_health self p calls Ht Hall) as H.
    assert (Hn : (51 <= inject_Z (Z.of_nat (length calls)))%Q)
      by (change 51%Q with (inject_Z 51); rewrite <- Zle_Qle; lia).
    set (n := inject_Z (Z.of_nat (length calls))) in *.
    set (h' := health_score (snd (report_results self p calls))) in *.
    destruct (Qmin_spec 1 (health_score p + 0.01 * n)) as (_ & _ & [A|A]);
      rewrite A in H; lra.
Qed.

Lemma consecutive_reports_settle_status_witness :
  status (snd (report_results sample_rotator proxy_a
                 (repeat (false, None, 1%Q) 15)))
  = BLOCKED.
Proof.
  refine (proj1 (consecutive_reports_settle_status sample_rotator proxy_a
                   (repeat (false, None, 1%Q) 15) _) _ _ _).
  - vm_compute. discriminate.
  - vm_compute. discriminate.
  - apply (bool_decide_unpack _). vm_compute. exact I.
  - vm_compute. lia.
Defined.

(** ** Pool status *)

Lemma count_status_cons v p l :
  count_status v (p :: l)
  = ((if bool_decide (status p = v) then 1 else 0) + count_status v l)%nat.
Proof.
  unfold count_status. destruct (bool_decide_reflect (status p = v)) as [E|E].
  - now rewrite filter_cons_True by exact E.
  - now rewrite filter_cons_False by exact E.
Qed.

Lemma count_status_partition l :
  (count_status ACTIVE l + count_status INACTIVE l + count_status BLOCKED l
   + count_status RATE_LIMITED l + count_status PROXY_FAILED l)%nat
  = length l.
Proof.
  induction l as [|p l IH]; [reflexivity|].
  rewrite !count_status_cons. simpl length.
  destruct (status p); simpl; lia.
Qed.

Lemma count_failed_health_check l :
  count_status PROXY_FAILED (map health_check_proxy l)
  = count_status PROXY_FAILED l.
Proof.
  induction l as [|p l IH]; [reflexivity|].
  simpl map. rewrite !count_status_cons, IH. f_equal.
  unfold health_check_proxy.
  destruct (decide (status p = PROXY_FAILED)) as [E|E].
  - now rewrite !(bool_decide_eq_true_2 _ E).
  - rewrite !(bool_decide_eq_false_2 _ E).
    rewrite bool_decide_eq_false_2; [reflexivity|].
    destruct p; simpl. unfold health_check_status.
    destruct (Qltb _ 0.2); [discriminate|].
    destruct (Qltb _ 0.4); discriminate.
Qed.

(** [get_pool_status]: an unknown pool gives the error answer.  For a known
    pool the three counts it reports never exceed [total_proxies], and they
    add up to it exactly when no proxy of the pool is rate-limited or
    inactive, the two states it does not report.  A health sweep of the
    pool changes neither [total_proxies] nor [failed_proxies]. *)
Theorem get_pool_status_counts self pool_name :
  (pools self !! pool_name = None -> get_pool_status self pool_name = None)
  /\ (forall pool,
        pools self !! pool_name = Some pool ->
        exists st,
          get_pool_status self pool_name = Some st
          /\ ps_total_proxies st = length (proxies pool)
          /\ (ps_active_proxies st + ps_blocked_proxies st
              + ps_failed_proxies st
              + count_status RATE_LIMITED (proxies pool)
              + count_status INACTIVE (proxies pool))%nat
             = ps_total_proxies st
          /\ (ps_active_proxies st + ps_blocked_proxies st
              + ps_failed_proxies st <= ps_total_proxies st)%nat
          /\ exists st',
               get_pool_status
                 (set_pools (<[pool_name := _health_check_pool pool]>
                               (pools self)) self) pool_name
               = Some st'
               /\ ps_total_proxies st' = ps_total_proxies st
               /\ ps_failed_proxies st' = ps_failed_proxies st).
Proof.
  split.
  - intros H. unfold get_pool_status. now rewrite H.
  - intros pool H. unfold get_pool_status. rewrite H. simpl.
    eexists. split; [reflexivity|]. simpl.
    pose proof (count_status_partition (proxies pool)) as P.
    split; [reflexivity|]. split; [lia|]. split; [lia|].
    rewrite lookup_insert_eq. simpl.
    eexists. split; [reflexivity|]. simpl. split.
    + apply length_map.
    + apply count_failed_health_check.
Qed.

Lemma get_pool_status_counts_witness :
  get_pool_status sample_rotator "premium" = None.
Proof.
  apply (proj1 (get_pool_status_counts sample_rotator "premium")).
  reflexivity.
Defined.

(** ** The proxy of the VPN integration *)



(** ** The properties of the orchestrator on the sample worlds *)

Lemma missing_breaker_never_trips_witness :
  exists s',
    @record_outcomes Q sample_env SCRAPY (repeat false 6) bare_orchestrator
    = (Returned tt, s')
    /\ circuit_breakers s' = circuit_breakers bare_orchestrator
    /\ @_check_circuit_breaker Q sample_env SCRAPY s' = (Returned true, s').
Proof.
  apply (@missing_breaker_never_trips Q sample_env SCRAPY bare_orchestrator).
  reflexivity.
Defined.

Lemma extract_consults_two_breakers_witness :
  @extract Q sample_env (sample_request "r1" SCRAPY)
    (sample_orchestrator open_breaker open_breaker initial_breaker)
  = (Returned (sample_request "r1" SCRAPY,
               rejected_result (sample_request "r1" SCRAPY)),
     sample_orchestrator open_breaker open_breaker initial_breaker).
Proof.
  apply (@extract_consults_two_breakers Q sample_env).
  - exists open_breaker. vm_compute. auto.
  - exists open_breaker. vm_compute. auto.
Defined.

Lemma extract_calls_one_backend_witness :
  exists a s',
    @extract Q sample_env (sample_request "r1" PYDOLL) fresh_orchestrator
    = (Returned a, s').
Proof.
  destruct (@extract_calls_one_backend Q sample_env
              (sample_request "r1" PYDOLL) fresh_orchestrator)
    as (a & s' & E & _).
  - intros m. destruct m; vm_compute; eauto.
  - exists a, s'. exact E.
Defined.

Lemma extract_on_exception_witness :
  exists s',
    @extract Q failing_env (sample_request "r1" PYDOLL) fresh_orchestrator
    = (Returned (sample_request "r1" PYDOLL,
                 failed_result (request_id_str (sample_request "r1" PYDOLL))
                   "timed out" "TimeoutError" (Some (101 - 100)%Q)), s')
    /\ performance_metrics s' = performance_metrics fresh_orchestrator.
Proof.
  destruct (@extract_on_exception Q failing_env (sample_request "r1" PYDOLL)
              fresh_orchestrator initial_breaker (mkService None)
              timeout_error 101%Q)
    as (s' & E & _ & P & _).
  - reflexivity.
  - reflexivity.
  - reflexivity.
  - reflexivity.
  - exists s'. split; [exact E | exact P].
Defined.

Lemma extract_on_result_witness :
  exists s',
    @extract Q sample_env (sample_request "r1" PYDOLL) fresh_orchestrator
    = (Returned (sample_request "r1" PYDOLL,
                 success_result (sample_request "r1" PYDOLL)), s').
Proof.
  destruct (@extract_on_result Q sample_env (sample_request "r1" PYDOLL)
              fresh_orchestrator initial_breaker (mkService None)
              (success_result (sample_request "r1" PYDOLL)) 101%Q)
    as (s' & after & E & _).
  - reflexivity.
  - reflexivity.
  - reflexivity.
  - reflexivity.
  - vm_compute. discriminate.
  - exists s'. exact E.
Defined.

Lemma performance_metrics_tracking_witness :
  exists s' after,
    @record_metrics Q SCRAPY [(1%Q, true); (2%Q, false)]
      fresh_orchestrator
    = (Returned tt, s')
    /\ performance_metrics s' !! value SCRAPY = Some after
    /\ m_requests after = 2.
Proof.
  destruct (@performance_metrics_tracking Q SCRAPY
              fresh_orchestrator (1%Q, true) [(2%Q, false)])
    as (s' & after & E & L & R & _).
  - reflexivity.
  - exists s', after. split; [exact E|]. split; [exact L | exact R].
Defined.

Lemma batch_extract_records_outcomes_witness :
  exists s',
    @batch_extract Q failing_env
      [sample_request "1" PYDOLL; sample_request "2" PYDOLL] fresh_orchestrator
    = (Returned (map (exception_result timeout_error)
                   [sample_request "1" PYDOLL; sample_request "2" PYDOLL]), s')
    /\ circuit_breakers s'
       = <[value PYDOLL := breaker_update initial_breaker false 101%Q]>
           (circuit_breakers fresh_orchestrator).
Proof.
  destruct (@batch_extract_records_outcomes Q failing_env PYDOLL
              (sample_request "1" PYDOLL) [sample_request "2" PYDOLL]
              fresh_orchestrator initial_breaker (mkService None)
              (Raised timeout_error) 101%Q)
    as (s' & E & B & _).
  - repeat constructor.
  - reflexivity.
  - reflexivity.
  - reflexivity.
  - reflexivity.
  - exists s'. split; [exact E | exact B].
Defined.


(** ** The properties of the rotator on the sample pools *)


Lemma get_proxy_no_active_proxy_witness :
  get_proxy blocked_rotator "default" (Some "s1") (Some "US") None 10%Q
    0%nat 0%nat
  = (None, blocked_rotator).
Proof.
  eapply get_proxy_no_active_proxy.
  - reflexivity.
  - repeat constructor. discriminate.
Defined.

Lemma health_based_selection_witness :
  is_Some (best_by_health [proxy_a; proxy_b]).
Proof.
  apply (proj2 (proj2 (health_based_selection sample_rotator
                         [proxy_a; proxy_b] 0%nat 0%nat)) proxy_a).
  - apply list_elem_of_here.
  - vm_compute. reflexivity.
Defined.

Lemma health_check_pool_effect_witness :
  _health_check_pool (_health_check_pool sample_pool)
  = _health_check_pool sample_pool.
Proof. apply (health_check_pool_effect sample_pool). Defined.

(** ** Installing the breakers *)

Section InitializeFacts.
Context {World : Type} `{Env : Environment World}.

(** The breaker loop of [initialize] gives every backend a closed breaker
    with no failure counted, whatever breaker it held before (an open one
    is closed again), touches no other key and nothing else of the
    orchestrator, and running it again changes nothing.  After it every
    backend is admitted. *)
Theorem initialize_installs_closed_breakers (s : Orchestrator World) :
  exists s',
    initialize_circuit_breakers s = (Returned tt, s')
    /\ (forall m, circuit_breakers s' !! value m = Some initial_breaker)
    /\ (forall k, (forall m, k <> value m) ->
                  circuit_breakers s' !! k = circuit_breakers s !! k)
    /\ services s' = services s
    /\ performance_metrics s' = performance_metrics s
    /\ invocations s' = invocations s
    /\ initialize_circuit_breakers s' = (Returned tt, s')
    /\ (forall m, _check_circuit_breaker m s' = (Returned true, s')).
Proof.
  eexists. split; [reflexivity|].
  assert (Hall : forall m,
             circuit_breakers
               (set_circuit_breakers
                  (foldl (fun breakers method =>
                            <[value method := initial_breaker]> breakers)
                         (circuit_breakers s) all_methods) s) !! value m
             = Some initial_breaker).
  { intros m. simpl.
    destruct m; simpl;
      rewrite ?lookup_insert_eq; try reflexivity;
      repeat (rewrite lookup_insert_ne by discriminate);
      rewrite ?lookup_insert_eq; reflexivity. }
  split; [exact Hall|]. split; [|split; [reflexivity|]].
  - intros k Hk. simpl.
    rewrite !lookup_insert_ne; [reflexivity| | |].
    + intros E. apply (Hk SCRAPY). now rewrite <- E.
    + intros E. apply (Hk PYDOLL). now rewrite <- E.
    + intros E. apply (Hk PLAYWRIGHT). now rewrite <- E.
  - split; [reflexivity|]. split; [reflexivity|]. split.
    + unfold initialize_circuit_breakers, modify. f_equal.
      unfold set_circuit_breakers. simpl. f_equal.
      apply map_eq. intros k.
      destruct (decide (k = "playwright")) as [->|N1];
        [now rewrite !lookup_insert_eq|rewrite (lookup_insert_ne _ _ k) by congruence].
      destruct (decide (k = "pydoll")) as [->|N2].
      * rewrite lookup_insert_eq.
        rewrite lookup_insert_ne by discriminate.
        now rewrite lookup_insert_eq.
      * rewrite (lookup_insert_ne _ _ k) by congruence.
        destruct (decide (k = "scrapy")) as [->|N3].
        -- rewrite lookup_insert_eq.
           rewrite !(lookup_insert_ne _ _ "scrapy") by discriminate.
           now rewrite lookup_insert_eq.
        -- rewrite (lookup_insert_ne _ _ k) by congruence.
           now rewrite !(lookup_insert_ne _ _ k) by congruence.
    + intros m. apply (check_closed m _ initial_breaker); [apply Hall|reflexivity].
Qed.

End InitializeFacts.

Lemma initialize_installs_closed_breakers_witness :
  exists s',
    @initialize_circuit_breakers Q
      (sample_orchestrator open_breaker open_breaker open_breaker)
    = (Returned tt, s')
    /\ circuit_breakers s' !! value PYDOLL = Some initial_breaker
    /\ circuit_breakers s' !! "requests"
       = circuit_breakers
           (sample_orchestrator open_breaker open_breaker open_breaker)
         !! "requests".
Proof.
  destruct (@initialize_installs_closed_breakers Q sample_env
              (sample_orchestrator open_breaker open_breaker open_breaker))
    as (s' & E & Hall & Hother & _).
  exists s'. split; [exact E|]. split; [apply Hall|].
  apply Hother. intros m. destruct m; discriminate.
Defined.
